(** * TWTS background field (bgrTWTS.hpp): embedding and properties

    The C++ code computes with [float_X], [float_64] and [float_T].  This
    development reads every floating-point type as the exact reals [R], so a
    precision cast is the identity and no rounding, NaN or infinity occurs.
    Integer grid indices ([DataSpace]) are vectors over [Z]. *)

From Stdlib Require Import Reals Lra ZArith List Bool.
Import ListNotations.

Local Open Scope R_scope.

(** ** PMacc::math::Vector<T, n> *)

(** An [n]-component vector, as an [n]-fold product. *)
Fixpoint Vector (A : Type) (n : nat) : Type :=
  match n with
  | O => unit
  | S m => (A * Vector A m)%type
  end.

(** [Vector(a)]: every component initialised to [a]. *)
Fixpoint vconst {A : Type} (n : nat) (a : A) : Vector A n :=
  match n with
  | O => tt
  | S m => (a, vconst m a)
  end.

(** [v[i]] for reading; [d] stands for an index that is out of range, which
    the loops of this file never reach. *)
Fixpoint vget {A : Type} {n : nat} (i : nat) (d : A) : Vector A n -> A :=
  match n with
  | O => fun _ => d
  | S m => fun v =>
      match i with
      | O => fst v
      | S j => vget j d (snd v)
      end
  end.

(** [v[i] = a]. *)
Fixpoint vset {A : Type} {n : nat} (i : nat) (a : A) : Vector A n -> Vector A n :=
  match n with
  | O => fun v => v
  | S m => fun v =>
      match i with
      | O => (a, snd v)
      | S j => (fst v, vset j a (snd v))
      end
  end.

Fixpoint vmap {A B : Type} {n : nat} (f : A -> B) : Vector A n -> Vector B n :=
  match n with
  | O => fun _ => tt
  | S m => fun v => (f (fst v), vmap f (snd v))
  end.

(** Component-wise binary operators ([+], [-], [*] of two vectors). *)
Fixpoint vzip {A B C : Type} {n : nat} (f : A -> B -> C)
  : Vector A n -> Vector B n -> Vector C n :=
  match n with
  | O => fun _ _ => tt
  | S m => fun u v => (f (fst u) (fst v), vzip f (snd u) (snd v))
  end.

Abbreviation DIM2 := 2%nat.
Abbreviation DIM3 := 3%nat.

(** bgrTWTS.def is not part of the sources; [numComponents] is the number of
    components of a field vector, which the loops over Ex, Ey, Ez index. *)
Abbreviation numComponents := 3%nat.

Definition floatD_64 (simDim : nat) : Type := Vector R simDim.
Definition floatD_X (simDim : nat) : Type := Vector R simDim.
Definition float3_64 : Type := Vector R 3.
Definition float3_X : Type := Vector R 3.
Definition DataSpace (simDim : nat) : Type := Vector Z simDim.

Definition mk_float3 (a b c : R) : Vector R 3 := (a, (b, (c, tt))).
Definition mk_float2 (a b : R) : Vector R 2 := (a, (b, tt)).

Definition get_x {n : nat} (v : Vector R n) : R := vget 0 0 v.
Definition get_y {n : nat} (v : Vector R n) : R := vget 1 0 v.
Definition get_z {n : nat} (v : Vector R n) : R := vget 2 0 v.
Definition set_x {n : nat} (a : R) (v : Vector R n) : Vector R n := vset 0 a v.
Definition set_y {n : nat} (a : R) (v : Vector R n) : Vector R n := vset 1 a v.

Definition vadd {n : nat} (u v : Vector R n) : Vector R n := vzip Rplus u v.
Definition vsub {n : nat} (u v : Vector R n) : Vector R n := vzip Rminus u v.
Definition vmul {n : nat} (u v : Vector R n) : Vector R n := vzip Rmult u v.
Definition vscale {n : nat} (u : Vector R n) (a : R) : Vector R n :=
  vmap (fun c => c * a) u.

(** Precision casts.  On exact reals they change nothing; an integer vector
    is cast component by component. *)
Definition float_64 (r : R) : R := r.
Definition float_X (r : R) : R := r.
Definition float_T (r : R) : R := r.
Definition precisionCast {n : nat} (v : Vector Z n) : Vector R n := vmap IZR v.

(** ** The C math library

    [atan2 y x] of <math.h>, on exact reals: the angle of the point [(x, y)]
    in (-PI, PI], and 0 at the origin. *)
Definition atan2 (y x : R) : R :=
  if Rlt_dec 0 x then atan (y / x)
  else if Rlt_dec x 0 then
    (if Rle_dec 0 y then atan (y / x) + PI else atan (y / x) - PI)
  else if Rlt_dec 0 y then PI / 2
  else if Rlt_dec y 0 then - (PI / 2)
  else 0.

(** ** Constants of namespace picongpu::SI

    The parameter files that define them are not part of the sources. *)
Record SI : Type := mkSI {
  SPEED_OF_LIGHT_SI : R;
  DELTA_T_SI : R;
  CELL_WIDTH_SI : R;
  CELL_DEPTH_SI : R
}.

(** ** PMacc::math::Complex *)

(** Modelled from the spec: math/Complex.hpp is not part of the sources.  The
    spec describes the evaluators as complex-valued rational/exponential
    closed forms, so [Complex] is a pair of reals with the field operations of
    the complex numbers; a real operand is promoted to a complex one. *)
Record Complex : Type := complex_T { get_real : R; get_imag : R }.

Declare Scope complex_scope.
Delimit Scope complex_scope with C.
Bind Scope complex_scope with Complex.

Definition RtoC (r : R) : Complex := complex_T r 0.
Coercion RtoC : R >-> Complex.

Definition Cadd (a b : Complex) : Complex :=
  complex_T (get_real a + get_real b) (get_imag a + get_imag b).
Definition Copp (a : Complex) : Complex :=
  complex_T (- get_real a) (- get_imag a).
Definition Csub (a b : Complex) : Complex :=
  complex_T (get_real a - get_real b) (get_imag a - get_imag b).
Definition Cmul (a b : Complex) : Complex :=
  complex_T (get_real a * get_real b - get_imag a * get_imag b)
            (get_real a * get_imag b + get_imag a * get_real b).
Definition Cdiv (a b : Complex) : Complex :=
  let n := get_real b * get_real b + get_imag b * get_imag b in
  complex_T ((get_real a * get_real b + get_imag a * get_imag b) / n)
            ((get_imag a * get_real b - get_real a * get_imag b) / n).

Notation "a + b" := (Cadd a b) : complex_scope.
Notation "a - b" := (Csub a b) : complex_scope.
Notation "a * b" := (Cmul a b) : complex_scope.
Notation "a / b" := (Cdiv a b) : complex_scope.
Notation "- a" := (Copp a) : complex_scope.

(** The transcendental functions of PMacc::algorithms::math on [Complex]
    ([pmMath::exp], [pmMath::sqrt], [pmMath::pow] with a real exponent) are
    not part of the sources; the evaluators take them as given. *)
Record ComplexMath : Type := mkComplexMath {
  cexp : Complex -> Complex;
  csqrt : Complex -> Complex;
  cpow : Complex -> R -> Complex
}.

(** ** What the simulation supplies

    Globals and collaborators that bgrTWTS.hpp reads but does not define: the
    SI constants, [UNIT_LENGTH], [picongpu::cellSize], the size of the global
    domain ([Environment<simDim>::get().SubGrid().getGlobalDomain().size]) and
    the Yee-grid offsets of the three E and the three B components
    ([fieldSolver::NumericalCellType]). *)
Record Simulation (simDim : nat) : Type := mkSimulation {
  si : SI;
  pmMath_impl : ComplexMath;
  UNIT_LENGTH : R;
  cellSize : floatD_X simDim;
  globalDomainSize : DataSpace simDim;
  getEFieldPosition : Vector (floatD_X simDim) numComponents;
  getBFieldPosition : Vector (floatD_X simDim) numComponents
}.
Arguments si {simDim}.
Arguments pmMath_impl {simDim}.
Arguments UNIT_LENGTH {simDim}.
Arguments cellSize {simDim}.
Arguments globalDomainSize {simDim}.
Arguments getEFieldPosition {simDim}.
Arguments getBFieldPosition {simDim}.

(** ** Member functions as state-passing computations

    A member function runs against the simulation globals (read only) and the
    object it is called on, and hands the object back together with its
    result.  It also records every evaluation of a closed-form field formula,
    in call order. *)
Inductive Evaluator : Type := Ex | By | Bz.

Record Call : Type := mkCall {
  call_evaluator : Evaluator;
  call_pos : float3_64;
  call_time : R
}.

Definition M (simDim : nat) (S A : Type) : Type :=
  Simulation simDim -> S -> A * S * list Call.

Definition ret {simDim : nat} {S A : Type} (a : A) : M simDim S A :=
  fun _ s => (a, s, []).

Definition bind {simDim : nat} {S A B : Type}
    (m : M simDim S A) (k : A -> M simDim S B) : M simDim S B :=
  fun sim s =>
    let r1 := m sim s in
    let r2 := k (fst (fst r1)) sim (snd (fst r1)) in
    (fst (fst r2), snd (fst r2), snd r1 ++ snd r2).

Arguments bind {simDim S A B} & m k.

(** [*this]. *)
Definition get_this {simDim : nat} {S : Type} : M simDim S S :=
  fun _ s => (s, s, []).

(** The simulation globals. *)
Definition globals {simDim : nat} {S : Type} : M simDim S (Simulation simDim) :=
  fun sim s => (sim, s, []).

(** A call of one of the const member functions calcTWTSEx, calcTWTSBy,
    calcTWTSBz. *)
Definition evaluate {simDim : nat} {S : Type} (e : Evaluator)
    (f : SI -> ComplexMath -> S -> float3_64 -> R -> R)
    (pos : float3_64) (time : R) : M simDim S R :=
  fun sim s => (f (si sim) (pmMath_impl sim) s pos time, s, [mkCall e pos time]).

Declare Scope method_scope.
Delimit Scope method_scope with method.
Notation "x <- m ;; k" := (bind m (fun x => k))
  (at level 61, m at next level, right associativity) : method_scope.

Definition result_of {A S : Type} (r : A * S * list Call) : A := fst (fst r).
Definition object_after {A S : Type} (r : A * S * list Call) : S := snd (fst r).
Definition calls_of {A S : Type} (r : A * S * list Call) : list Call := snd r.

(** [for (uint32_t i = from; i < to; ++i) body]. *)
Definition for_loop {A : Type} (from to : nat) (body : nat -> A -> A) (a : A) : A :=
  fold_left (fun acc i => body i acc) (seq from (to - from)) a.

(** ** The pulse-front tilt angle

    The three closed-form evaluators start with the same two lines
    (bgrTWTS.hpp 400-401, 750-751, 887-888). *)
Definition alphaTilt (beta0 phiReal : R) : R :=
  atan2 (float_T 1 - beta0 * cos phiReal) (beta0 * sin phiReal).

Definition phiT (beta0 phiReal : R) : R :=
  float_T 2 * alphaTilt beta0 phiReal.

(** ** namespace detail *)
Module detail.

(** [template <typename T_Type, T_AngleType> struct RotateField]: declared
    for every type, defined for 3- and for 2-component vectors only. *)
Class RotateField (T_Type : Type) : Type :=
  RotateField_call : T_Type -> R -> T_Type.

(** RotationMatrix[PI/2+phi].(y,z), the x component is kept. *)
#[global] Instance RotateField_Vector3 : RotateField (Vector R 3) :=
  fun fieldPosVector phi =>
    mk_float3
      (get_x fieldPosVector)
      (- sin phi * get_y fieldPosVector - cos phi * get_z fieldPosVector)
      (cos phi * get_y fieldPosVector - sin phi * get_z fieldPosVector).

(** The last two components of the 3D formula, read off (y, x). *)
#[global] Instance RotateField_Vector2 : RotateField (Vector R 2) :=
  fun fieldPosVector phi =>
    mk_float2
      (- sin phi * get_y fieldPosVector - cos phi * get_x fieldPosVector)
      (cos phi * get_y fieldPosVector - sin phi * get_x fieldPosVector).

Definition rotateField {T_Type : Type} `{RotateField T_Type}
    (fieldPosVector : T_Type) (phi : R) : T_Type :=
  RotateField_call fieldPosVector phi.

(** [template <unsigned T_dim> class get_tdelay_SI], specialised for DIM3
    and DIM2. *)
Class get_tdelay_SI (T_dim : nat) : Type :=
  get_tdelay_SI_call :
    SI -> bool -> R -> DataSpace T_dim -> R -> R -> R -> R -> R.

#[global] Instance get_tdelay_SI_DIM3 : get_tdelay_SI DIM3 :=
  fun si auto_tdelay tdelay_user_SI halfSimSize pulselength_SI focus_y_SI
      phi beta_0 =>
    if auto_tdelay then
      let eta := PI / 2 - (phi / 2) in
      let y1 := float_64 (IZR (vget 2 0%Z halfSimSize) * CELL_DEPTH_SI si)
                * Rabs (cos eta) in
      let m := 3 in
      let y2 := m * (pulselength_SI * SPEED_OF_LIGHT_SI si) / cos eta in
      let y3 := focus_y_SI in
      let tdelay := (y1 + y2 + y3) / (SPEED_OF_LIGHT_SI si * beta_0) in
      tdelay
    else tdelay_user_SI.

#[global] Instance get_tdelay_SI_DIM2 : get_tdelay_SI DIM2 :=
  fun si auto_tdelay tdelay_user_SI halfSimSize pulselength_SI focus_y_SI
      phi beta_0 =>
    if auto_tdelay then
      let eta := PI / 2 - (phi / 2) in
      let y1 := float_64 (IZR (vget 0 0%Z halfSimSize) * CELL_WIDTH_SI si)
                * Rabs (cos eta) in
      let m := 3 in
      let y2 := m * (pulselength_SI * SPEED_OF_LIGHT_SI si) / cos eta in
      let y3 := focus_y_SI in
      let tdelay := (y1 + y2 + y3) / (SPEED_OF_LIGHT_SI si * beta_0) in
      tdelay
    else tdelay_user_SI.

End detail.

(** ** class TWTSFieldE *)
Module TWTSFieldE.

Record members (simDim : nat) : Type := mk_members {
  focus_y_SI : R;
  wavelength_SI : R;
  pulselength_SI : R;
  w_x_SI : R;
  w_y_SI : R;
  phi : R;
  beta_0 : R;
  tdelay_user_SI : R;
  dt : R;
  unit_length : R;
  auto_tdelay : bool;
  halfSimSize : DataSpace simDim;
  tdelay : R
}.
Arguments mk_members {simDim}.
Arguments focus_y_SI {simDim}.
Arguments wavelength_SI {simDim}.
Arguments pulselength_SI {simDim}.
Arguments w_x_SI {simDim}.
Arguments w_y_SI {simDim}.
Arguments phi {simDim}.
Arguments beta_0 {simDim}.
Arguments tdelay_user_SI {simDim}.
Arguments dt {simDim}.
Arguments unit_length {simDim}.
Arguments auto_tdelay {simDim}.
Arguments halfSimSize {simDim}.
Arguments tdelay {simDim}.

(** The constructor.  [size / 2] is the integer division of C++, taken
    component by component. *)
Definition construct {simDim : nat} `{detail.get_tdelay_SI simDim}
    (sim : Simulation simDim)
    (focus_y_SI wavelength_SI pulselength_SI w_x_SI w_y_SI phi beta_0
       tdelay_user_SI : R) (auto_tdelay : bool) : members simDim :=
  let halfSimSize := vmap (fun c => Z.quot c 2) (globalDomainSize sim) in
  let tdelay := detail.get_tdelay_SI_call (si sim) auto_tdelay tdelay_user_SI
                  halfSimSize pulselength_SI focus_y_SI phi beta_0 in
  mk_members focus_y_SI wavelength_SI pulselength_SI w_x_SI w_y_SI phi beta_0
    tdelay_user_SI (DELTA_T_SI (si sim)) (UNIT_LENGTH sim) auto_tdelay
    halfSimSize tdelay.

(** [getEfieldPositions_SI]: the loop body touches component [i] only, so the
    loop over the three field components is a map. *)
Definition getEfieldPositions_SI {simDim : nat}
    `{detail.RotateField (floatD_64 simDim)} (cellIdx : DataSpace simDim)
  : M simDim (members simDim) (Vector (floatD_64 simDim) numComponents) :=
  (this <- get_this ;;
   sim <- globals ;;
   let cellDim : floatD_64 simDim := cellSize sim in
   let cellDimensions : floatD_64 simDim := vscale cellDim (unit_length this) in
   let laserOrigin : floatD_X simDim := precisionCast (halfSimSize this) in
   let laserOrigin : floatD_X simDim :=
     set_y (float_X (focus_y_SI this / get_y cellDimensions)) laserOrigin in
   let eFieldPositions := getEFieldPosition sim in
   ret (vmap
          (fun eFieldPositions_i : floatD_X simDim =>
             let eFieldPositions_i :=
               vadd eFieldPositions_i (vsub (precisionCast cellIdx) laserOrigin) in
             let eFieldPositions_SI_i := vmul eFieldPositions_i cellDimensions in
             detail.rotateField eFieldPositions_SI_i (phi this))
          eFieldPositions))%method.

(** [calcTWTSEx]: the Ex(r,t) field. *)
Definition calcTWTSEx {simDim : nat} (si : SI) (pmMath : ComplexMath)
    (this : members simDim) (pos : float3_64) (time : R) : R :=
  let UNIT_SPEED : R := SPEED_OF_LIGHT_SI si in
  let UNIT_TIME : R := DELTA_T_SI si in
  let UNIT_LENGTH : R := UNIT_TIME*UNIT_SPEED in
  let beta0 : R := float_T ((beta_0 this)) in
  let phiReal : R := float_T ((phi this)) in
  let alphaTilt : R := alphaTilt beta0 phiReal in
  let phiT : R := phiT beta0 phiReal in
  let cspeed : R := (float_T 1) in
  let lambda0 : R := float_T ((wavelength_SI this)/UNIT_LENGTH) in
  let om0 : R := float_T (2*PI*cspeed/lambda0*UNIT_TIME) in
  let tauG : R := float_T ((pulselength_SI this)*2/UNIT_TIME) in
  let w0 : R := float_T ((w_x_SI this)/UNIT_LENGTH) in
  let rho0 : R := float_T (PI*w0*w0/lambda0/UNIT_LENGTH) in
  let wy : R := float_T ((w_y_SI this)/UNIT_LENGTH) in
  let k : R := float_T (2*PI/lambda0*UNIT_LENGTH) in
  let x : R := float_T (get_x pos/UNIT_LENGTH) in
  let y : R := float_T (get_y pos/UNIT_LENGTH) in
  let z : R := float_T (get_z pos/UNIT_LENGTH) in
  let t : R := float_T (time/UNIT_TIME) in
  let sinPhi : R := sin (phiT) in
  let cosPhi : R := cos (phiT) in
  let sinPhi2 : R := sin (phiT/(float_T 2)) in
  let cosPhi2 : R := cos (phiT/(float_T 2)) in
  let tanPhi2 : R := tan (phiT/(float_T 2)) in
  let helpVar1 : Complex := ((complex_T 0 1)*rho0 - y*cosPhi - z*sinPhi)%C in
  let helpVar2 : Complex := ((complex_T 0 (-1))*cspeed*om0*tauG*tauG
                              - y*cosPhi/cosPhi2/cosPhi2*tanPhi2
                              - (float_T 2)*z*tanPhi2*tanPhi2)%C in
  let helpVar3 : Complex := ((complex_T 0 1)*rho0 - y*cosPhi - z*sinPhi)%C in
  let helpVar4 : Complex := ((
      -(cspeed*cspeed*k*om0*tauG*tauG*wy*wy*x*x)
      - (float_T 2)*cspeed*cspeed*om0*t*t*wy*wy*rho0
      + (complex_T 0 2)*cspeed*cspeed*om0*om0*t*tauG*tauG*wy*wy*rho0
      - (float_T 2)*cspeed*cspeed*om0*tauG*tauG*y*y*rho0
      + (float_T 4)*cspeed*om0*t*wy*wy*z*rho0
      - (complex_T 0 2)*cspeed*om0*om0*tauG*tauG*wy*wy*z*rho0
      - (float_T 2)*om0*wy*wy*z*z*rho0
      - (complex_T 0 8)*om0*wy*wy*y*(cspeed*t - z)*z*sinPhi2*sinPhi2
      + (complex_T 0 8)/sinPhi*(
              (float_T 2)*z*z*(cspeed*om0*t*wy*wy+(complex_T 0 1)*cspeed*y*y-om0*wy*wy*z)
              + y*(
                   cspeed*k*wy*wy*x*x
                  - (complex_T 0 2)*cspeed*om0*t*wy*wy*rho0
                  + (float_T 2)*cspeed*y*y*rho0
                  + (complex_T 0 2)*om0*wy*wy*z*rho0
              )*tan ((float_T (PI/2))-phiT)/sinPhi
          )*sinPhi2*sinPhi2*sinPhi2*sinPhi2
      - (complex_T 0 2)*cspeed*cspeed*om0*t*t*wy*wy*z*sinPhi
      - (float_T 2)*cspeed*cspeed*om0*om0*t*tauG*tauG*wy*wy*z*sinPhi
      - (complex_T 0 2)*cspeed*cspeed*om0*tauG*tauG*y*y*z*sinPhi
      + (complex_T 0 4)*cspeed*om0*t*wy*wy*z*z*sinPhi
      + (float_T 2)*cspeed*om0*om0*tauG*tauG*wy*wy*z*z*sinPhi
      - (complex_T 0 2)*om0*wy*wy*z*z*z*sinPhi
      - (float_T 4)*cspeed*om0*t*wy*wy*y*rho0*tanPhi2
      + (float_T 4)*om0*wy*wy*y*z*rho0*tanPhi2
      + (complex_T 0 2)*y*y*(
            cspeed*om0*t*wy*wy + (complex_T 0 1)*cspeed*y*y - om0*wy*wy*z
           )*cosPhi*cosPhi/cosPhi2/cosPhi2*tanPhi2
      + (complex_T 0 2)*cspeed*k*wy*wy*x*x*z*tanPhi2*tanPhi2
      - (float_T 2)*om0*wy*wy*y*y*rho0*tanPhi2*tanPhi2
      + (float_T 4)*cspeed*om0*t*wy*wy*z*rho0*tanPhi2*tanPhi2
      + (complex_T 0 4)*cspeed*y*y*z*rho0*tanPhi2*tanPhi2
      - (float_T 4)*om0*wy*wy*z*z*rho0*tanPhi2*tanPhi2
      - (complex_T 0 2)*om0*wy*wy*y*y*z*sinPhi*tanPhi2*tanPhi2
      - (float_T 2)*y*cosPhi*(
           om0*(
               cspeed*cspeed*(
                    (complex_T 0 1)*t*t*wy*wy
                  + om0*t*tauG*tauG*wy*wy
                  + (complex_T 0 1)*tauG*tauG*y*y
                  )
              - cspeed*((complex_T 0 2)*t
              + om0*tauG*tauG)*wy*wy*z
              + (complex_T 0 1)*wy*wy*z*z
              )
          + (complex_T 0 2)*om0*wy*wy*y*(cspeed*t - z)*tanPhi2
          + (complex_T 0 1)*tanPhi2*tanPhi2*(
                (complex_T 0 (-4))*cspeed*y*y*z
              + om0*wy*wy*(y*y - (float_T 4)*(cspeed*t - z)*z)
          )
      )
  )/((float_T 2)*cspeed*wy*wy*helpVar1*helpVar2))%C in
  let helpVar5 : Complex := (cspeed*om0*tauG*tauG
      - (complex_T 0 8)*y*tan ( (float_T (PI/2))-phiT )
                          /sinPhi/sinPhi*sinPhi2*sinPhi2*sinPhi2*sinPhi2
      - (complex_T 0 2)*z*tanPhi2*tanPhi2)%C in
  let result : Complex := ((cexp pmMath (helpVar4)*tauG
      *csqrt pmMath ((cspeed*om0*rho0)/helpVar3))/csqrt pmMath (helpVar5))%C in
  get_real result.

(** [template<unsigned T_dim> getTWTSEfield_Normalized], specialised for DIM3
    and DIM2. *)
Class getTWTSEfield_Normalized (T_dim : nat) : Type :=
  getTWTSEfield_Normalized_call :
    Vector (floatD_64 T_dim) numComponents -> R -> M T_dim (members T_dim) float3_X.

#[global] Instance getTWTSEfield_Normalized_DIM3 : getTWTSEfield_Normalized DIM3 :=
  fun eFieldPositions_SI time =>
    (let pos : float3_64 := vconst 3 0 in
     let pos : float3_64 :=
       for_loop 0 DIM3
         (fun i pos => vset i (vget i 0 (vget 0 (vconst DIM3 0) eFieldPositions_SI)) pos)
         pos in
     E <- evaluate Ex calcTWTSEx pos time ;;
     ret (mk_float3 (float_X E) (float_X 0) (float_X 0)))%method.

#[global] Instance getTWTSEfield_Normalized_DIM2 : getTWTSEfield_Normalized DIM2 :=
  fun eFieldPositions_SI time =>
    (let pos : float3_64 := vconst 3 0 in
     let pos : float3_64 :=
       for_loop 1 DIM2
         (fun i pos => vset i (vget i 0 (vget 2 (vconst DIM2 0) eFieldPositions_SI)) pos)
         pos in
     E <- evaluate Ex calcTWTSEx pos time ;;
     ret (mk_float3 (float_X 0) (float_X 0) (float_X E)))%method.

(** [operator()]. *)
Definition operator_call {simDim : nat}
    `{detail.RotateField (floatD_64 simDim)} `{getTWTSEfield_Normalized simDim}
    (cellIdx : DataSpace simDim) (currentStep : N)
  : M simDim (members simDim) float3_X :=
  (this <- get_this ;;
   let time_SI := float_64 (IZR (Z.of_N currentStep)) * dt this - tdelay this in
   eFieldPositions_SI <- getEfieldPositions_SI cellIdx ;;
   getTWTSEfield_Normalized_call eFieldPositions_SI time_SI)%method.

End TWTSFieldE.

(** ** class TWTSFieldB *)
Module TWTSFieldB.

Record members (simDim : nat) : Type := mk_members {
  focus_y_SI : R;
  wavelength_SI : R;
  pulselength_SI : R;
  w_x_SI : R;
  w_y_SI : R;
  phi : R;
  beta_0 : R;
  tdelay_user_SI : R;
  dt : R;
  unit_length : R;
  auto_tdelay : bool;
  halfSimSize : DataSpace simDim;
  tdelay : R
}.
Arguments mk_members {simDim}.
Arguments focus_y_SI {simDim}.
Arguments wavelength_SI {simDim}.
Arguments pulselength_SI {simDim}.
Arguments w_x_SI {simDim}.
Arguments w_y_SI {simDim}.
Arguments phi {simDim}.
Arguments beta_0 {simDim}.
Arguments tdelay_user_SI {simDim}.
Arguments dt {simDim}.
Arguments unit_length {simDim}.
Arguments auto_tdelay {simDim}.
Arguments halfSimSize {simDim}.
Arguments tdelay {simDim}.

(** The constructor.  [size / 2] is the integer division of C++, taken
    component by component. *)
Definition construct {simDim : nat} `{detail.get_tdelay_SI simDim}
    (sim : Simulation simDim)
    (focus_y_SI wavelength_SI pulselength_SI w_x_SI w_y_SI phi beta_0
       tdelay_user_SI : R) (auto_tdelay : bool) : members simDim :=
  let halfSimSize := vmap (fun c => Z.quot c 2) (globalDomainSize sim) in
  let tdelay := detail.get_tdelay_SI_call (si sim) auto_tdelay tdelay_user_SI
                  halfSimSize pulselength_SI focus_y_SI phi beta_0 in
  mk_members focus_y_SI wavelength_SI pulselength_SI w_x_SI w_y_SI phi beta_0
    tdelay_user_SI (DELTA_T_SI (si sim)) (UNIT_LENGTH sim) auto_tdelay
    halfSimSize tdelay.

(** [template<unsigned T_dim> getBfieldPositions_SI], specialised for DIM3
    and DIM2.  As for E, the loop over the field components is a map. *)
Class getBfieldPositions_SI (T_dim : nat) : Type :=
  getBfieldPositions_SI_call :
    DataSpace T_dim ->
    M T_dim (members T_dim) (Vector (floatD_64 T_dim) numComponents).

#[global] Instance getBfieldPositions_SI_DIM3 : getBfieldPositions_SI DIM3 :=
  fun cellIdx =>
    (this <- get_this ;;
     sim <- globals ;;
     let cellDim : floatD_64 DIM3 := cellSize sim in
     let cellDimensions : floatD_64 DIM3 := vscale cellDim (unit_length this) in
     let laserOrigin : floatD_X DIM3 := precisionCast (halfSimSize this) in
     let laserOrigin : floatD_X DIM3 :=
       set_y (float_X (focus_y_SI this / get_y cellDimensions)) laserOrigin in
     let bFieldPositions := getBFieldPosition sim in
     ret (vmap
            (fun bFieldPositions_i : floatD_X DIM3 =>
               let bFieldPositions_i :=
                 vadd bFieldPositions_i (vsub (precisionCast cellIdx) laserOrigin) in
               let bFieldPositions_SI_i := vmul bFieldPositions_i cellDimensions in
               detail.rotateField bFieldPositions_SI_i (phi this))
            bFieldPositions))%method.

#[global] Instance getBfieldPositions_SI_DIM2 : getBfieldPositions_SI DIM2 :=
  fun cellIdx =>
    (this <- get_this ;;
     sim <- globals ;;
     let cellDim : floatD_64 DIM2 := cellSize sim in
     let cellDimensions : floatD_64 DIM2 := vscale cellDim (unit_length this) in
     let laserOrigin : floatD_X DIM2 := precisionCast (halfSimSize this) in
     let laserOrigin : floatD_X DIM2 :=
       set_y (float_X (focus_y_SI this / get_y cellDimensions)) laserOrigin in
     let bFieldPositions := getBFieldPosition sim in
     ret (vmap
            (fun bFieldPositions_i : floatD_X DIM2 =>
               let bFieldPositions_i :=
                 vadd bFieldPositions_i (vsub (precisionCast cellIdx) laserOrigin) in
               let bFieldPositions_SI_i := vmul bFieldPositions_i cellDimensions in
               let storeForSwap := bFieldPositions_SI_i in
               let bFieldPositions_SI_i :=
                 set_x (get_y bFieldPositions_SI_i) bFieldPositions_SI_i in
               let bFieldPositions_SI_i :=
                 set_y (get_x storeForSwap) bFieldPositions_SI_i in
               detail.rotateField bFieldPositions_SI_i (phi this))
            bFieldPositions))%method.

(** [calcTWTSBy]: the By(r,t) field. *)
Definition calcTWTSBy {simDim : nat} (si : SI) (pmMath : ComplexMath)
    (this : members simDim) (pos : float3_64) (time : R) : R :=
  let UNIT_SPEED : R := SPEED_OF_LIGHT_SI si in
  let UNIT_TIME : R := DELTA_T_SI si in
  let UNIT_LENGTH : R := UNIT_TIME*UNIT_SPEED in
  let beta0 : R := float_T ((beta_0 this)) in
  let phiReal : R := float_T ((phi this)) in
  let alphaTilt : R := alphaTilt beta0 phiReal in
  let phiT : R := phiT beta0 phiReal in
  let cspeed : R := (float_T 1) in
  let lambda0 : R := float_T ((wavelength_SI this)/UNIT_LENGTH) in
  let om0 : R := float_T (2*PI*cspeed/lambda0*UNIT_TIME) in
  let tauG : R := float_T ((pulselength_SI this)*2/UNIT_TIME) in
  let w0 : R := float_T ((w_x_SI this)/UNIT_LENGTH) in
  let rho0 : R := float_T (PI*w0*w0/lambda0/UNIT_LENGTH) in
  let wy : R := float_T ((w_y_SI this)/UNIT_LENGTH) in
  let k : R := float_T (2*PI/lambda0*UNIT_LENGTH) in
  let x : R := float_T (get_x pos/UNIT_LENGTH) in
  let y : R := float_T (get_y pos/UNIT_LENGTH) in
  let z : R := float_T (get_z pos/UNIT_LENGTH) in
  let t : R := float_T (time/UNIT_TIME) in
  let sinPhi : R := sin (phiT) in
  let cosPhi : R := cos (phiT) in
  let cosPhi2 : R := cos (phiT/2) in
  let tanPhi2 : R := tan (phiT/2) in
  let helpVar1 : Complex := (rho0 + (complex_T 0 1)*y*cosPhi + (complex_T 0 1)*z*sinPhi)%C in
  let helpVar2 : Complex := (cspeed*om0*tauG*tauG + (complex_T 0 2)
                              *(-z - y*tan ((float_T (PI/2))-phiT))*tanPhi2*tanPhi2)%C in
  let helpVar3 : Complex := ((complex_T 0 1)*rho0 - y*cosPhi - z*sinPhi)%C in
  let helpVar4 : Complex := ((float_T (-1))*(
      cspeed*cspeed*k*om0*tauG*tauG*wy*wy*x*x
      + (float_T 2)*cspeed*cspeed*om0*t*t*wy*wy*rho0
      - (complex_T 0 2)*cspeed*cspeed*om0*om0*t*tauG*tauG*wy*wy*rho0
      + (float_T 2)*cspeed*cspeed*om0*tauG*tauG*y*y*rho0
      - (float_T 4)*cspeed*om0*t*wy*wy*z*rho0
      + (complex_T 0 2)*cspeed*om0*om0*tauG*tauG*wy*wy*z*rho0
      + (float_T 2)*om0*wy*wy*z*z*rho0
      + (float_T 4)*cspeed*om0*t*wy*wy*y*rho0*tanPhi2
      - (float_T 4)*om0*wy*wy*y*z*rho0*tanPhi2
      - (complex_T 0 2)*cspeed*k*wy*wy*x*x*z*tanPhi2*tanPhi2
      + (float_T 2)*om0*wy*wy*y*y*rho0*tanPhi2*tanPhi2
      - (float_T 4)*cspeed*om0*t*wy*wy*z*rho0*tanPhi2*tanPhi2
      - (complex_T 0 4)*cspeed*y*y*z*rho0*tanPhi2*tanPhi2
      + (float_T 4)*om0*wy*wy*z*z*rho0*tanPhi2*tanPhi2
      - (complex_T 0 2)*cspeed*k*wy*wy*x*x*y*tan ((float_T (PI/2))-phiT)*tanPhi2*tanPhi2
      - (float_T 4)*cspeed*om0*t*wy*wy*y*rho0*tan ((float_T (PI/2))-phiT)*tanPhi2*tanPhi2
      - (complex_T 0 4)*cspeed*y*y*y*rho0*tan ((float_T (PI/2))-phiT)*tanPhi2*tanPhi2
      + (float_T 4)*om0*wy*wy*y*z*rho0*tan ((float_T (PI/2))-phiT)*tanPhi2*tanPhi2
      + (float_T 2)*z*sinPhi*(
           om0*(
               cspeed*cspeed*(
                    (complex_T 0 1)*t*t*wy*wy
                  + om0*t*tauG*tauG*wy*wy
                  + (complex_T 0 1)*tauG*tauG*y*y
              )
              - cspeed*((complex_T 0 2)*t + om0*tauG*tauG)*wy*wy*z
              + (complex_T 0 1)*wy*wy*z*z
              )
          + (complex_T 0 2)*om0*wy*wy*y*(cspeed*t - z)*tanPhi2
          + (complex_T 0 1)*tanPhi2*tanPhi2*(
                (complex_T 0 (-2))*cspeed*y*y*z
              + om0*wy*wy*( y*y - (float_T 2)*(cspeed*t - z)*z )
          )
      )
      + (float_T 2)*y*cosPhi*(
           om0*(
               cspeed*cspeed*(
                    (complex_T 0 1)*t*t*wy*wy
                  + om0*t*tauG*tauG*wy*wy
                  + (complex_T 0 1)*tauG*tauG*y*y
              )
          - cspeed*((complex_T 0 2)*t + om0*tauG*tauG)*wy*wy*z
          + (complex_T 0 1)*wy*wy*z*z
          )
      + (complex_T 0 2)*om0*wy*wy*y*(cspeed*t - z)*tanPhi2
      + (complex_T 0 1)*(
            (complex_T 0 (-4))*cspeed*y*y*z
          + om0*wy*wy*(y*y - (float_T 4)*(cspeed*t - z)*z)
          - (float_T 2)*y*(
               cspeed*om0*t*wy*wy
              + (complex_T 0 1)*cspeed*y*y
              - om0*wy*wy*z
              )*tan ((float_T (PI/2))-phiT)
          )*tanPhi2*tanPhi2
      )
  )/((float_T 2)*cspeed*wy*wy*helpVar1*helpVar2))%C in
  let helpVar5 : Complex := ((complex_T 0 (-1))*cspeed*om0*tauG*tauG
                          + (-z - y*tan ((float_T (PI/2))-phiT))*tanPhi2*tanPhi2*(float_T 2))%C in
  let helpVar6 : Complex := ((cspeed*(cspeed*om0*tauG*tauG + (complex_T 0 2)
                          *(-z - y*tan ((float_T (PI/2))-phiT))*tanPhi2*tanPhi2))/(om0*rho0))%C in
  let result : Complex := ((cexp pmMath (helpVar4)*tauG/cosPhi2/cosPhi2
      *(rho0 + (complex_T 0 1)*y*cosPhi + (complex_T 0 1)*z*sinPhi)
      *(
            (complex_T 0 2)*cspeed*t + cspeed*om0*tauG*tauG - (complex_T 0 4)*z
          + cspeed*((complex_T 0 2)*t + om0*tauG*tauG)*cosPhi
          + (complex_T 0 2)*y*tanPhi2
      )*cpow pmMath helpVar3 (float_T (-1.5))
  )/((float_T 2)*helpVar5*csqrt pmMath (helpVar6)))%C in
  get_real result.

(** [calcTWTSBz]: the Bz(r,t) field. *)
Definition calcTWTSBz {simDim : nat} (si : SI) (pmMath : ComplexMath)
    (this : members simDim) (pos : float3_64) (time : R) : R :=
  let UNIT_SPEED : R := SPEED_OF_LIGHT_SI si in
  let UNIT_TIME : R := DELTA_T_SI si in
  let UNIT_LENGTH : R := UNIT_TIME*UNIT_SPEED in
  let beta0 : R := float_T ((beta_0 this)) in
  let phiReal : R := float_T ((phi this)) in
  let alphaTilt : R := alphaTilt beta0 phiReal in
  let phiT : R := phiT beta0 phiReal in
  let cspeed : R := (float_T 1) in
  let lambda0 : R := float_T ((wavelength_SI this)/UNIT_LENGTH) in
  let om0 : R := float_T (2*PI*cspeed/lambda0*UNIT_TIME) in
  let tauG : R := float_T ((pulselength_SI this)*2/UNIT_TIME) in
  let w0 : R := float_T ((w_x_SI this)/UNIT_LENGTH) in
  let rho0 : R := float_T (PI*w0*w0/lambda0/UNIT_LENGTH) in
  let wy : R := float_T ((w_y_SI this)/UNIT_LENGTH) in
  let k : R := float_T (2*PI/lambda0*UNIT_LENGTH) in
  let x : R := float_T (get_x pos/UNIT_LENGTH) in
  let y : R := float_T (get_y pos/UNIT_LENGTH) in
  let z : R := float_T (get_z pos/UNIT_LENGTH) in
  let t : R := float_T (time/UNIT_TIME) in
  let sinPhi : R := sin (phiT) in
  let cosPhi : R := cos (phiT) in
  let sinPhi2 : R := sin (phiT/(float_T 2)) in
  let cosPhi2 : R := cos (phiT/(float_T 2)) in
  let tanPhi2 : R := tan (phiT/(float_T 2)) in
  let helpVar1 : Complex := (-(cspeed*z) - cspeed*y*tan ((float_T (PI/2))-phiT)
                              + (complex_T 0 1)*cspeed*rho0/sinPhi)%C in
  let helpVar2 : Complex := ((complex_T 0 1)*rho0 - y*cosPhi - z*sinPhi)%C in
  let helpVar3 : Complex := (helpVar2*cspeed)%C in
  let helpVar4 : Complex := (cspeed*om0*tauG*tauG
                              - (complex_T 0 1)*y*cosPhi/cosPhi2/cosPhi2*tanPhi2
                              - (complex_T 0 2)*z*tanPhi2*tanPhi2)%C in
  let helpVar5 : Complex := ((float_T 2)*cspeed*t - (complex_T 0 1)*cspeed*om0*tauG*tauG
                      - (float_T 2)*z + (float_T 8)*y/sinPhi/sinPhi/sinPhi
                          *sinPhi2*sinPhi2*sinPhi2*sinPhi2
                      - (float_T 2)*z*tanPhi2*tanPhi2)%C in
  let helpVar6 : Complex := ((
  (om0*y*rho0/cosPhi2/cosPhi2/cosPhi2/cosPhi2)/helpVar1
  - ((complex_T 0 2)*k*x*x)/helpVar2
  - ((complex_T 0 1)*om0*om0*tauG*tauG*rho0)/helpVar2
  - ((complex_T 0 4)*y*y*rho0)/(wy*wy*helpVar2)
  + (om0*om0*tauG*tauG*y*cosPhi)/helpVar2
  + ((float_T 4)*y*y*y*cosPhi)/(wy*wy*helpVar2)
  + (om0*om0*tauG*tauG*z*sinPhi)/helpVar2
  + ((float_T 4)*y*y*z*sinPhi)/(wy*wy*helpVar2)
  + ((complex_T 0 2)*om0*y*y*cosPhi/cosPhi2/cosPhi2*tanPhi2)/helpVar3
  + (om0*y*rho0*cosPhi/cosPhi2/cosPhi2*tanPhi2)/helpVar3
  + ((complex_T 0 1)*om0*y*y*cosPhi*cosPhi/cosPhi2/cosPhi2*tanPhi2)/helpVar3
  + ((complex_T 0 4)*om0*y*z*tanPhi2*tanPhi2)/helpVar3
  - ((float_T 2)*om0*z*rho0*tanPhi2*tanPhi2)/helpVar3
  - ((complex_T 0 2)*om0*z*z*sinPhi*tanPhi2*tanPhi2)/helpVar3
  - (om0*helpVar5*helpVar5)/(cspeed*helpVar4)
  )/(float_T 4))%C in
  let helpVar7 : Complex := (cspeed*om0*tauG*tauG
                              - (complex_T 0 1)*y*cosPhi/cosPhi2/cosPhi2*tanPhi2
                              - (complex_T 0 2)*z*tanPhi2*tanPhi2)%C in
  let result : Complex := (( (complex_T 0 2)*cexp pmMath (helpVar6)*tauG*tanPhi2
                              *(cspeed*t - z + y*tanPhi2)
                              *csqrt pmMath ( (om0*rho0)/helpVar3 )
                            )/cpow pmMath helpVar7 (float_T 1.5))%C in
  get_real result.

(** [template<unsigned T_dim> getTWTSBfield_Normalized], specialised for DIM3
    and DIM2. *)
Class getTWTSBfield_Normalized (T_dim : nat) : Type :=
  getTWTSBfield_Normalized_call :
    Vector (floatD_64 T_dim) numComponents -> R -> M T_dim (members T_dim) float3_X.

#[global] Instance getTWTSBfield_Normalized_DIM3 : getTWTSBfield_Normalized DIM3 :=
  fun bFieldPositions_SI time =>
    (this <- get_this ;;
     let pos : Vector float3_64 numComponents := vconst numComponents (vconst 3 0) in
     let pos : Vector float3_64 numComponents :=
       for_loop 0 numComponents
         (fun k pos =>
            for_loop 0 DIM3
              (fun i pos =>
                 vset k
                   (vset i (vget i 0 (vget k (vconst DIM3 0) bFieldPositions_SI))
                      (vget k (vconst 3 0) pos))
                   pos)
              pos)
         pos in
     By_By <- evaluate By calcTWTSBy (vget 1 (vconst 3 0) pos) time ;;
     Bz_By <- evaluate Bz calcTWTSBz (vget 1 (vconst 3 0) pos) time ;;
     By_Bz <- evaluate By calcTWTSBy (vget 2 (vconst 3 0) pos) time ;;
     Bz_Bz <- evaluate Bz calcTWTSBz (vget 2 (vconst 3 0) pos) time ;;
     let By_rot := - sin (phi this) * By_By + cos (phi this) * Bz_By in
     let Bz_rot := - cos (phi this) * By_Bz - sin (phi this) * Bz_Bz in
     ret (mk_float3 (float_X 0) (float_X By_rot) (float_X Bz_rot)))%method.

#[global] Instance getTWTSBfield_Normalized_DIM2 : getTWTSBfield_Normalized DIM2 :=
  fun bFieldPositions_SI time =>
    (this <- get_this ;;
     let pos : Vector float3_64 numComponents := vconst numComponents (vconst 3 0) in
     let pos : Vector float3_64 numComponents :=
       for_loop 0 numComponents
         (fun k pos =>
            for_loop 1 DIM2
              (fun i pos =>
                 vset k
                   (vset i (vget i 0 (vget k (vconst DIM2 0) bFieldPositions_SI))
                      (vget k (vconst 3 0) pos))
                   pos)
              pos)
         pos in
     By_By <- evaluate By calcTWTSBy (vget 1 (vconst 3 0) pos) time ;;
     Bz_at_By <- evaluate Bz calcTWTSBz (vget 1 (vconst 3 0) pos) time ;;
     let Bx_By := - Bz_at_By in
     By_Bx <- evaluate By calcTWTSBy (vget 0 (vconst 3 0) pos) time ;;
     Bz_at_Bx <- evaluate Bz calcTWTSBz (vget 0 (vconst 3 0) pos) time ;;
     let Bx_Bx := - Bz_at_Bx in
     let By_rot := - sin (phi this) * By_By + cos (phi this) * Bx_By in
     let Bx_rot := - cos (phi this) * By_Bx - sin (phi this) * Bx_Bx in
     ret (mk_float3 (float_X 0) (float_X By_rot) (float_X Bx_rot)))%method.

(** [operator()]. *)
Definition operator_call {simDim : nat}
    `{getBfieldPositions_SI simDim} `{getTWTSBfield_Normalized simDim}
    (cellIdx : DataSpace simDim) (currentStep : N)
  : M simDim (members simDim) float3_X :=
  (this <- get_this ;;
   let time_SI := float_64 (IZR (Z.of_N currentStep)) * dt this - tdelay this in
   bFieldPositions_SI <- getBfieldPositions_SI_call cellIdx ;;
   getTWTSBfield_Normalized_call bFieldPositions_SI time_SI)%method.

End TWTSFieldB.

(** ** The Position Mapper in the words of the specification

    Section 4.3 of the specification describes the mapped position of a field
    component as the rotation of
    [(cellIndex + offset - laserOrigin) * cellSize].  [mapPosition_spec] is
    that sentence, for a given laser origin and physical cell size. *)
Definition mapPosition_spec {simDim : nat}
    `{detail.RotateField (floatD_64 simDim)}
    (laserOrigin : floatD_X simDim) (cellIdx : DataSpace simDim)
    (offset : floatD_X simDim) (cellSize : floatD_64 simDim) (phi : R)
  : floatD_64 simDim :=
  detail.rotateField
    (vmul (vsub (vadd (precisionCast cellIdx) offset) laserOrigin) cellSize)
    phi.

(** The laser origin as the specification words it: the domain half-extent,
    shifted along y by [focusY / cellSizeY]. *)
Definition laserOrigin_spec {simDim : nat} (halfSimSize : DataSpace simDim)
    (focusY cellSizeY : R) : floatD_X simDim :=
  set_y (get_y (precisionCast halfSimSize) + focusY / cellSizeY)
        (precisionCast halfSimSize).

(** The laser origin as bgrTWTS.hpp computes it: the y component of the
    half-extent is overwritten with [focusY / cellSizeY]. *)
Definition laserOrigin_code {simDim : nat} (halfSimSize : DataSpace simDim)
    (focusY cellSizeY : R) : floatD_X simDim :=
  set_y (focusY / cellSizeY) (precisionCast halfSimSize).

(** ** A sample configuration

    A cubic domain of 128 cells per axis with unit cells, the Yee offsets of
    the standard staggered grid, and a pulse that crosses the window at a
    right angle.  The complex functions are the principal branches. *)
Definition Cabs (c : Complex) : R :=
  sqrt (get_real c * get_real c + get_imag c * get_imag c).

Definition principal_exp (c : Complex) : Complex :=
  complex_T (exp (get_real c) * cos (get_imag c))
            (exp (get_real c) * sin (get_imag c)).

Definition principal_sqrt (c : Complex) : Complex :=
  complex_T (sqrt ((Cabs c + get_real c) / 2))
            ((if Rle_dec 0 (get_imag c) then 1 else -1)
             * sqrt ((Cabs c - get_real c) / 2)).

Definition principal_pow (c : Complex) (p : R) : Complex :=
  if Req_dec_T (Cabs c) 0 then complex_T 0 0
  else
    let theta := atan2 (get_imag c) (get_real c) in
    complex_T (Rpower (Cabs c) p * cos (p * theta))
              (Rpower (Cabs c) p * sin (p * theta)).

Definition sample_SI : SI := mkSI 299792458 1.0e-16 0.1e-6 0.1e-6.

Definition sample_simulation : Simulation DIM3 :=
  mkSimulation DIM3 sample_SI
    (mkComplexMath principal_exp principal_sqrt principal_pow)
    1
    (mk_float3 1 1 1)
    (128%Z, (128%Z, (128%Z, tt)))
    (mk_float3 0.5 0 0, (mk_float3 0 0.5 0, (mk_float3 0 0 0.5, tt)))
    (mk_float3 0 0.5 0.5, (mk_float3 0.5 0 0.5, (mk_float3 0.5 0.5 0, tt))).

Definition sample_E : TWTSFieldE.members DIM3 :=
  TWTSFieldE.construct sample_simulation
    0 0.8e-6 10.0e-15 5.0e-6 0.01 (PI / 2) 1 0 true.

Definition sample_cell : DataSpace DIM3 := (64%Z, (64%Z, (64%Z, tt))).

Definition sample_B : TWTSFieldB.members DIM3 :=
  TWTSFieldB.construct sample_simulation
    0 0.8e-6 10.0e-15 5.0e-6 0.01 (PI / 2) 1 0 true.

(** ** Closed forms as functions of the tilt angle

    The three evaluators compute [phiT] in their first lines and use nothing
    else of [phi] and [beta_0].  The definitions below are the remaining
    lines of each evaluator, with [phiT] as an argument. *)

(** The body of [TWTSFieldE.calcTWTSEx] below its tilt-angle lines, as a function of
    the tilt angle [phiT]. *)
Definition calcTWTSEx_at_tilt {simDim : nat} (si : SI) (pmMath : ComplexMath)
    (this : TWTSFieldE.members simDim) (phiT : R) (pos : float3_64) (time : R) : R :=
  let UNIT_SPEED : R := SPEED_OF_LIGHT_SI si in
  let UNIT_TIME : R := DELTA_T_SI si in
  let UNIT_LENGTH : R := UNIT_TIME*UNIT_SPEED in
  let cspeed : R := (float_T 1) in
  let lambda0 : R := float_T ((TWTSFieldE.wavelength_SI this)/UNIT_LENGTH) in
  let om0 : R := float_T (2*PI*cspeed/lambda0*UNIT_TIME) in
  let tauG : R := float_T ((TWTSFieldE.pulselength_SI this)*2/UNIT_TIME) in
  let w0 : R := float_T ((TWTSFieldE.w_x_SI this)/UNIT_LENGTH) in
  let rho0 : R := float_T (PI*w0*w0/lambda0/UNIT_LENGTH) in
  let wy : R := float_T ((TWTSFieldE.w_y_SI this)/UNIT_LENGTH) in
  let k : R := float_T (2*PI/lambda0*UNIT_LENGTH) in
  let x : R := float_T (get_x pos/UNIT_LENGTH) in
  let y : R := float_T (get_y pos/UNIT_LENGTH) in
  let z : R := float_T (get_z pos/UNIT_LENGTH) in
  let t : R := float_T (time/UNIT_TIME) in
  let sinPhi : R := sin (phiT) in
  let cosPhi : R := cos (phiT) in
  let sinPhi2 : R := sin (phiT/(float_T 2)) in
  let cosPhi2 : R := cos (phiT/(float_T 2)) in
  let tanPhi2 : R := tan (phiT/(float_T 2)) in
  let helpVar1 : Complex := ((complex_T 0 1)*rho0 - y*cosPhi - z*sinPhi)%C in
  let helpVar2 : Complex := ((complex_T 0 (-1))*cspeed*om0*tauG*tauG
                              - y*cosPhi/cosPhi2/cosPhi2*tanPhi2
                              - (float_T 2)*z*tanPhi2*tanPhi2)%C in
  let helpVar3 : Complex := ((complex_T 0 1)*rho0 - y*cosPhi - z*sinPhi)%C in
  let helpVar4 : Complex := ((
      -(cspeed*cspeed*k*om0*tauG*tauG*wy*wy*x*x)
      - (float_T 2)*cspeed*cspeed*om0*t*t*wy*wy*rho0
      + (complex_T 0 2)*cspeed*cspeed*om0*om0*t*tauG*tauG*wy*wy*rho0
      - (float_T 2)*cspeed*cspeed*om0*tauG*tauG*y*y*rho0
      + (float_T 4)*cspeed*om0*t*wy*wy*z*rho0
      - (complex_T 0 2)*cspeed*om0*om0*tauG*tauG*wy*wy*z*rho0
      - (float_T 2)*om0*wy*wy*z*z*rho0
      - (complex_T 0 8)*om0*wy*wy*y*(cspeed*t - z)*z*sinPhi2*sinPhi2
      + (complex_T 0 8)/sinPhi*(
              (float_T 2)*z*z*(cspeed*om0*t*wy*wy+(complex_T 0 1)*cspeed*y*y-om0*wy*wy*z)
              + y*(
                   cspeed*k*wy*wy*x*x
                  - (complex_T 0 2)*cspeed*om0*t*wy*wy*rho0
                  + (float_T 2)*cspeed*y*y*rho0
                  + (complex_T 0 2)*om0*wy*wy*z*rho0
              )*tan ((float_T (PI/2))-phiT)/sinPhi
          )*sinPhi2*sinPhi2*sinPhi2*sinPhi2
      - (complex_T 0 2)*cspeed*cspeed*om0*t*t*wy*wy*z*sinPhi
      - (float_T 2)*cspeed*cspeed*om0*om0*t*tauG*tauG*wy*wy*z*sinPhi
      - (complex_T 0 2)*cspeed*cspeed*om0*tauG*tauG*y*y*z*sinPhi
      + (complex_T 0 4)*cspeed*om0*t*wy*wy*z*z*sinPhi
      + (float_T 2)*cspeed*om0*om0*tauG*tauG*wy*wy*z*z*sinPhi
      - (complex_T 0 2)*om0*wy*wy*z*z*z*sinPhi
      - (float_T 4)*cspeed*om0*t*wy*wy*y*rho0*tanPhi2
      + (float_T 4)*om0*wy*wy*y*z*rho0*tanPhi2
      + (complex_T 0 2)*y*y*(
            cspeed*om0*t*wy*wy + (complex_T 0 1)*cspeed*y*y - om0*wy*wy*z
           )*cosPhi*cosPhi/cosPhi2/cosPhi2*tanPhi2
      + (complex_T 0 2)*cspeed*k*wy*wy*x*x*z*tanPhi2*tanPhi2
      - (float_T 2)*om0*wy*wy*y*y*rho0*tanPhi2*tanPhi2
      + (float_T 4)*cspeed*om0*t*wy*wy*z*rho0*tanPhi2*tanPhi2
      + (complex_T 0 4)*cspeed*y*y*z*rho0*tanPhi2*tanPhi2
      - (float_T 4)*om0*wy*wy*z*z*rho0*tanPhi2*tanPhi2
      - (complex_T 0 2)*om0*wy*wy*y*y*z*sinPhi*tanPhi2*tanPhi2
      - (float_T 2)*y*cosPhi*(
           om0*(
               cspeed*cspeed*(
                    (complex_T 0 1)*t*t*wy*wy
                  + om0*t*tauG*tauG*wy*wy
                  + (complex_T 0 1)*tauG*tauG*y*y
                  )
              - cspeed*((complex_T 0 2)*t
              + om0*tauG*tauG)*wy*wy*z
              + (complex_T 0 1)*wy*wy*z*z
              )
          + (complex_T 0 2)*om0*wy*wy*y*(cspeed*t - z)*tanPhi2
          + (complex_T 0 1)*tanPhi2*tanPhi2*(
                (complex_T 0 (-4))*cspeed*y*y*z
              + om0*wy*wy*(y*y - (float_T 4)*(cspeed*t - z)*z)
          )
      )
  )/((float_T 2)*cspeed*wy*wy*helpVar1*helpVar2))%C in
  let helpVar5 : Complex := (cspeed*om0*tauG*tauG
      - (complex_T 0 8)*y*tan ( (float_T (PI/2))-phiT )
                          /sinPhi/sinPhi*sinPhi2*sinPhi2*sinPhi2*sinPhi2
      - (complex_T 0 2)*z*tanPhi2*tanPhi2)%C in
  let result : Complex := ((cexp pmMath (helpVar4)*tauG
      *csqrt pmMath ((cspeed*om0*rho0)/helpVar3))/csqrt pmMath (helpVar5))%C in
  get_real result.

(** The body of [TWTSFieldB.calcTWTSBy] below its tilt-angle lines, as a function of
    the tilt angle [phiT]. *)
Definition calcTWTSBy_at_tilt {simDim : nat} (si : SI) (pmMath : ComplexMath)
    (this : TWTSFieldB.members simDim) (phiT : R) (pos : float3_64) (time : R) : R :=
  let UNIT_SPEED : R := SPEED_OF_LIGHT_SI si in
  let UNIT_TIME : R := DELTA_T_SI si in
  let UNIT_LENGTH : R := UNIT_TIME*UNIT_SPEED in
  let cspeed : R := (float_T 1) in
  let lambda0 : R := float_T ((TWTSFieldB.wavelength_SI this)/UNIT_LENGTH) in
  let om0 : R := float_T (2*PI*cspeed/lambda0*UNIT_TIME) in
  let tauG : R := float_T ((TWTSFieldB.pulselength_SI this)*2/UNIT_TIME) in
  let w0 : R := float_T ((TWTSFieldB.w_x_SI this)/UNIT_LENGTH) in
  let rho0 : R := float_T (PI*w0*w0/lambda0/UNIT_LENGTH) in
  let wy : R := float_T ((TWTSFieldB.w_y_SI this)/UNIT_LENGTH) in
  let k : R := float_T (2*PI/lambda0*UNIT_LENGTH) in
  let x : R := float_T (get_x pos/UNIT_LENGTH) in
  let y : R := float_T (get_y pos/UNIT_LENGTH) in
  let z : R := float_T (get_z pos/UNIT_LENGTH) in
  let t : R := float_T (time/UNIT_TIME) in
  let sinPhi : R := sin (phiT) in
  let cosPhi : R := cos (phiT) in
  let cosPhi2 : R := cos (phiT/2) in
  let tanPhi2 : R := tan (phiT/2) in
  let helpVar1 : Complex := (rho0 + (complex_T 0 1)*y*cosPhi + (complex_T 0 1)*z*sinPhi)%C in
  let helpVar2 : Complex := (cspeed*om0*tauG*tauG + (complex_T 0 2)
                              *(-z - y*tan ((float_T (PI/2))-phiT))*tanPhi2*tanPhi2)%C in
  let helpVar3 : Complex := ((complex_T 0 1)*rho0 - y*cosPhi - z*sinPhi)%C in
  let helpVar4 : Complex := ((float_T (-1))*(
      cspeed*cspeed*k*om0*tauG*tauG*wy*wy*x*x
      + (float_T 2)*cspeed*cspeed*om0*t*t*wy*wy*rho0
      - (complex_T 0 2)*cspeed*cspeed*om0*om0*t*tauG*tauG*wy*wy*rho0
      + (float_T 2)*cspeed*cspeed*om0*tauG*tauG*y*y*rho0
      - (float_T 4)*cspeed*om0*t*wy*wy*z*rho0
      + (complex_T 0 2)*cspeed*om0*om0*tauG*tauG*wy*wy*z*rho0
      + (float_T 2)*om0*wy*wy*z*z*rho0
      + (float_T 4)*cspeed*om0*t*wy*wy*y*rho0*tanPhi2
      - (float_T 4)*om0*wy*wy*y*z*rho0*tanPhi2
      - (complex_T 0 2)*cspeed*k*wy*wy*x*x*z*tanPhi2*tanPhi2
      + (float_T 2)*om0*wy*wy*y*y*rho0*tanPhi2*tanPhi2
      - (float_T 4)*cspeed*om0*t*wy*wy*z*rho0*tanPhi2*tanPhi2
      - (complex_T 0 4)*cspeed*y*y*z*rho0*tanPhi2*tanPhi2
      + (float_T 4)*om0*wy*wy*z*z*rho0*tanPhi2*tanPhi2
      - (complex_T 0 2)*cspeed*k*wy*wy*x*x*y*tan ((float_T (PI/2))-phiT)*tanPhi2*tanPhi2
      - (float_T 4)*cspeed*om0*t*wy*wy*y*rho0*tan ((float_T (PI/2))-phiT)*tanPhi2*tanPhi2
      - (complex_T 0 4)*cspeed*y*y*y*rho0*tan ((float_T (PI/2))-phiT)*tanPhi2*tanPhi2
      + (float_T 4)*om0*wy*wy*y*z*rho0*tan ((float_T (PI/2))-phiT)*tanPhi2*tanPhi2
      + (float_T 2)*z*sinPhi*(
           om0*(
               cspeed*cspeed*(
                    (complex_T 0 1)*t*t*wy*wy
                  + om0*t*tauG*tauG*wy*wy
                  + (complex_T 0 1)*tauG*tauG*y*y
              )
              - cspeed*((complex_T 0 2)*t + om0*tauG*tauG)*wy*wy*z
              + (complex_T 0 1)*wy*wy*z*z
              )
          + (complex_T 0 2)*om0*wy*wy*y*(cspeed*t - z)*tanPhi2
          + (complex_T 0 1)*tanPhi2*tanPhi2*(
                (complex_T 0 (-2))*cspeed*y*y*z
              + om0*wy*wy*( y*y - (float_T 2)*(cspeed*t - z)*z )
          )
      )
      + (float_T 2)*y*cosPhi*(
           om0*(
               cspeed*cspeed*(
                    (complex_T 0 1)*t*t*wy*wy
                  + om0*t*tauG*tauG*wy*wy
                  + (complex_T 0 1)*tauG*tauG*y*y
              )
          - cspeed*((complex_T 0 2)*t + om0*tauG*tauG)*wy*wy*z
          + (complex_T 0 1)*wy*wy*z*z
          )
      + (complex_T 0 2)*om0*wy*wy*y*(cspeed*t - z)*tanPhi2
      + (complex_T 0 1)*(
            (complex_T 0 (-4))*cspeed*y*y*z
          + om0*wy*wy*(y*y - (float_T 4)*(cspeed*t - z)*z)
          - (float_T 2)*y*(
               cspeed*om0*t*wy*wy
              + (complex_T 0 1)*cspeed*y*y
              - om0*wy*wy*z
              )*tan ((float_T (PI/2))-phiT)
          )*tanPhi2*tanPhi2
      )
  )/((float_T 2)*cspeed*wy*wy*helpVar1*helpVar2))%C in
  let helpVar5 : Complex := ((complex_T 0 (-1))*cspeed*om0*tauG*tauG
                          + (-z - y*tan ((float_T (PI/2))-phiT))*tanPhi2*tanPhi2*(float_T 2))%C in
  let helpVar6 : Complex := ((cspeed*(cspeed*om0*tauG*tauG + (complex_T 0 2)
                          *(-z - y*tan ((float_T (PI/2))-phiT))*tanPhi2*tanPhi2))/(om0*rho0))%C in
  let result : Complex := ((cexp pmMath (helpVar4)*tauG/cosPhi2/cosPhi2
      *(rho0 + (complex_T 0 1)*y*cosPhi + (complex_T 0 1)*z*sinPhi)
      *(
            (complex_T 0 2)*cspeed*t + cspeed*om0*tauG*tauG - (complex_T 0 4)*z
          + cspeed*((complex_T 0 2)*t + om0*tauG*tauG)*cosPhi
          + (complex_T 0 2)*y*tanPhi2
      )*cpow pmMath helpVar3 (float_T (-1.5))
  )/((float_T 2)*helpVar5*csqrt pmMath (helpVar6)))%C in
  get_real result.

(** The body of [TWTSFieldB.calcTWTSBz] below its tilt-angle lines, as a function of
    the tilt angle [phiT]. *)
Definition calcTWTSBz_at_tilt {simDim : nat} (si : SI) (pmMath : ComplexMath)
    (this : TWTSFieldB.members simDim) (phiT : R) (pos : float3_64) (time : R) : R :=
  let UNIT_SPEED : R := SPEED_OF_LIGHT_SI si in
  let UNIT_TIME : R := DELTA_T_SI si in
  let UNIT_LENGTH : R := UNIT_TIME*UNIT_SPEED in
  let cspeed : R := (float_T 1) in
  let lambda0 : R := float_T ((TWTSFieldB.wavelength_SI this)/UNIT_LENGTH) in
  let om0 : R := float_T (2*PI*cspeed/lambda0*UNIT_TIME) in
  let tauG : R := float_T ((TWTSFieldB.pulselength_SI this)*2/UNIT_TIME) in
  let w0 : R := float_T ((TWTSFieldB.w_x_SI this)/UNIT_LENGTH) in
  let rho0 : R := float_T (PI*w0*w0/lambda0/UNIT_LENGTH) in
  let wy : R := float_T ((TWTSFieldB.w_y_SI this)/UNIT_LENGTH) in
  let k : R := float_T (2*PI/lambda0*UNIT_LENGTH) in
  let x : R := float_T (get_x pos/UNIT_LENGTH) in
  let y : R := float_T (get_y pos/UNIT_LENGTH) in
  let z : R := float_T (get_z pos/UNIT_LENGTH) in
  let t : R := float_T (time/UNIT_TIME) in
  let sinPhi : R := sin (phiT) in
  let cosPhi : R := cos (phiT) in
  let sinPhi2 : R := sin (phiT/(float_T 2)) in
  let cosPhi2 : R := cos (phiT/(float_T 2)) in
  let tanPhi2 : R := tan (phiT/(float_T 2)) in
  let helpVar1 : Complex := (-(cspeed*z) - cspeed*y*tan ((float_T (PI/2))-phiT)
                              + (complex_T 0 1)*cspeed*rho0/sinPhi)%C in
  let helpVar2 : Complex := ((complex_T 0 1)*rho0 - y*cosPhi - z*sinPhi)%C in
  let helpVar3 : Complex := (helpVar2*cspeed)%C in
  let helpVar4 : Complex := (cspeed*om0*tauG*tauG
                              - (complex_T 0 1)*y*cosPhi/cosPhi2/cosPhi2*tanPhi2
                              - (complex_T 0 2)*z*tanPhi2*tanPhi2)%C in
  let helpVar5 : Complex := ((float_T 2)*cspeed*t - (complex_T 0 1)*cspeed*om0*tauG*tauG
                      - (float_T 2)*z + (float_T 8)*y/sinPhi/sinPhi/sinPhi
                          *sinPhi2*sinPhi2*sinPhi2*sinPhi2
                      - (float_T 2)*z*tanPhi2*tanPhi2)%C in
  let helpVar6 : Complex := ((
  (om0*y*rho0/cosPhi2/cosPhi2/cosPhi2/cosPhi2)/helpVar1
  - ((complex_T 0 2)*k*x*x)/helpVar2
  - ((complex_T 0 1)*om0*om0*tauG*tauG*rho0)/helpVar2
  - ((complex_T 0 4)*y*y*rho0)/(wy*wy*helpVar2)
  + (om0*om0*tauG*tauG*y*cosPhi)/helpVar2
  + ((float_T 4)*y*y*y*cosPhi)/(wy*wy*helpVar2)
  + (om0*om0*tauG*tauG*z*sinPhi)/helpVar2
  + ((float_T 4)*y*y*z*sinPhi)/(wy*wy*helpVar2)
  + ((complex_T 0 2)*om0*y*y*cosPhi/cosPhi2/cosPhi2*tanPhi2)/helpVar3
  + (om0*y*rho0*cosPhi/cosPhi2/cosPhi2*tanPhi2)/helpVar3
  + ((complex_T 0 1)*om0*y*y*cosPhi*cosPhi/cosPhi2/cosPhi2*tanPhi2)/helpVar3
  + ((complex_T 0 4)*om0*y*z*tanPhi2*tanPhi2)/helpVar3
  - ((float_T 2)*om0*z*rho0*tanPhi2*tanPhi2)/helpVar3
  - ((complex_T 0 2)*om0*z*z*sinPhi*tanPhi2*tanPhi2)/helpVar3
  - (om0*helpVar5*helpVar5)/(cspeed*helpVar4)
  )/(float_T 4))%C in
  let helpVar7 : Complex := (cspeed*om0*tauG*tauG
                              - (complex_T 0 1)*y*cosPhi/cosPhi2/cosPhi2*tanPhi2
                              - (complex_T 0 2)*z*tanPhi2*tanPhi2)%C in
  let result : Complex := (( (complex_T 0 2)*cexp pmMath (helpVar6)*tauG*tanPhi2
                              *(cspeed*t - z + y*tanPhi2)
                              *csqrt pmMath ( (om0*rho0)/helpVar3 )
                            )/cpow pmMath helpVar7 (float_T 1.5))%C in
  get_real result.

(** ** Auxiliary notions for stating properties *)

(** Squared Euclidean distance of two vectors. *)
Fixpoint dist2 {n : nat} : Vector R n -> Vector R n -> R :=
  match n with
  | O => fun _ _ => 0
  | S m => fun u v =>
      (fst u - fst v) * (fst u - fst v) + dist2 (snd u) (snd v)
  end.

(** The physical coordinate, along axis [i], of a sample point: cell index
    plus fractional offset, counted from [origin] (in cells), times the
    physical cell size. *)
Definition physical_coordinate {n : nat} (i : nat) (cellIdx : DataSpace n)
    (offset : Vector R n) (origin : R) (cellDimensions : Vector R n) : R :=
  (IZR (vget i 0%Z cellIdx) + vget i 0 offset - origin)
  * vget i 0 cellDimensions.

(** The same functor object with another [halfSimSize]. *)
Definition E_with_halfSimSize {simDim : nat} (this : TWTSFieldE.members simDim)
    (h : DataSpace simDim) : TWTSFieldE.members simDim :=
  TWTSFieldE.mk_members
    (TWTSFieldE.focus_y_SI this) (TWTSFieldE.wavelength_SI this)
    (TWTSFieldE.pulselength_SI this) (TWTSFieldE.w_x_SI this)
    (TWTSFieldE.w_y_SI this) (TWTSFieldE.phi this) (TWTSFieldE.beta_0 this)
    (TWTSFieldE.tdelay_user_SI this) (TWTSFieldE.dt this)
    (TWTSFieldE.unit_length this) (TWTSFieldE.auto_tdelay this)
    h (TWTSFieldE.tdelay this).

Definition B_with_halfSimSize {simDim : nat} (this : TWTSFieldB.members simDim)
    (h : DataSpace simDim) : TWTSFieldB.members simDim :=
  TWTSFieldB.mk_members
    (TWTSFieldB.focus_y_SI this) (TWTSFieldB.wavelength_SI this)
    (TWTSFieldB.pulselength_SI this) (TWTSFieldB.w_x_SI this)
    (TWTSFieldB.w_y_SI this) (TWTSFieldB.phi this) (TWTSFieldB.beta_0 this)
    (TWTSFieldB.tdelay_user_SI this) (TWTSFieldB.dt this)
    (TWTSFieldB.unit_length this) (TWTSFieldB.auto_tdelay this)
    h (TWTSFieldB.tdelay this).

(** * Properties *)

Ltac destruct_vec3 v := destruct v as [?x [?y [?z []]]].
Ltac destruct_vec2 v := destruct v as [?x [?y []]].
Ltac destruct_vec3x3 v :=
  destruct v as [[?x [?y [?z []]]] [[?x [?y [?z []]]] [[?x [?y [?z []]]] []]]].
Ltac destruct_vec2x3 v :=
  destruct v as [[?x [?y []]] [[?x [?y []]] [[?x [?y []]] []]]].

(** ** Rotation Transform *)

Lemma sin_cos_square (phi : R) : sin phi * sin phi + cos phi * cos phi = 1.
Proof. pose proof (sin2_cos2 phi) as H. unfold Rsqr in H. exact H. Qed.

Lemma mk_float3_eq (a b c a' b' c' : R) :
  a = a' -> b = b' -> c = c' -> mk_float3 a b c = mk_float3 a' b' c'.
Proof. intros -> -> ->. reflexivity. Qed.

Lemma rotateField_Vector3_components (v : Vector R 3) (phi : R) :
  detail.rotateField v phi
  = mk_float3 (get_x v)
      (- sin phi * get_y v - cos phi * get_z v)
      (cos phi * get_y v - sin phi * get_z v).
Proof. reflexivity. Qed.

(** C1, as stated, fails: rotating (0, 1, 0) by phi = 0 gives (0, 0, 1), and
    the same formula at -phi turns that into (0, -1, 0), not (0, 1, 0). *)
Lemma rotateField_minus_phi_not_inverse :
  detail.rotateField (detail.rotateField (mk_float3 0 1 0) 0) (- 0)
  <> mk_float3 0 1 0.
Proof.
  rewrite !rotateField_Vector3_components.
  unfold mk_float3, get_x, get_y, get_z. cbn [vget fst snd].
  rewrite Ropp_0, sin_0, cos_0.
  intros H. apply (f_equal (fun v : Vector R 3 => fst (snd v))) in H.
  cbn [fst snd] in H. lra.
Qed.

(** C1 (amended): the rotation formula at phi followed by the same formula at
    -phi keeps x and negates the rotated pair (y, z), a half turn; the
    algebraic inverse of the formula is its transpose,
    y = -sin(phi)*y' + cos(phi)*z' and z = -cos(phi)*y' - sin(phi)*z',
    the combination the magnetic functor uses to rotate the field back. *)
Theorem rotateField_minus_phi_is_half_turn (v : Vector R 3) (phi : R) :
  detail.rotateField (detail.rotateField v phi) (- phi)
  = mk_float3 (get_x v) (- get_y v) (- get_z v)
  /\ (let v' := detail.rotateField v phi in
      get_x v' = get_x v
      /\ - sin phi * get_y v' + cos phi * get_z v' = get_y v
      /\ - cos phi * get_y v' - sin phi * get_z v' = get_z v).
Proof.
  destruct_vec3 v.
  pose proof (sin_cos_square phi) as H.
  split.
  - rewrite !rotateField_Vector3_components.
    rewrite sin_neg, cos_neg.
    apply mk_float3_eq;
      unfold mk_float3, get_x, get_y, get_z; cbn [vget fst snd].
    + reflexivity.
    + transitivity (- (sin phi * sin phi + cos phi * cos phi) * y);
        [ring | rewrite H; ring].
    + transitivity (- (sin phi * sin phi + cos phi * cos phi) * z);
        [ring | rewrite H; ring].
  - cbv zeta. rewrite rotateField_Vector3_components.
    unfold mk_float3, get_x, get_y, get_z. cbn [vget fst snd].
    repeat split.
    + transitivity ((sin phi * sin phi + cos phi * cos phi) * y);
        [ring | rewrite H; ring].
    + transitivity ((sin phi * sin phi + cos phi * cos phi) * z);
        [ring | rewrite H; ring].
Qed.

(** ** Tilt angle *)

Lemma atan2_pos_x (y x : R) : 0 < x -> atan2 y x = atan (y / x).
Proof.
  intros H. unfold atan2. destruct (Rlt_dec 0 x); [reflexivity | lra].
Qed.

Lemma atan2_neg_x_nonneg_y (y x : R) :
  x < 0 -> 0 <= y -> atan2 y x = atan (y / x) + PI.
Proof.
  intros Hx Hy. unfold atan2.
  destruct (Rlt_dec 0 x); [lra |].
  destruct (Rlt_dec x 0); [| lra].
  destruct (Rle_dec 0 y); [reflexivity | lra].
Qed.

Lemma atan2_zero_x_pos_y (y : R) : 0 < y -> atan2 y 0 = PI / 2.
Proof.
  intros Hy. unfold atan2.
  destruct (Rlt_dec 0 0); [lra |].
  destruct (Rlt_dec 0 y); [reflexivity | lra].
Qed.

Lemma atan2_origin : atan2 0 0 = 0.
Proof.
  unfold atan2. destruct (Rlt_dec 0 0); [lra | reflexivity].
Qed.

Lemma half_angle_quotient (a : R) :
  sin a <> 0 -> cos a <> 0 -> (1 - cos (2 * a)) / sin (2 * a) = tan a.
Proof.
  intros Hs Hc. rewrite cos_2a_sin, sin_2a. unfold tan. field.
  split; assumption.
Qed.

Lemma alphaTilt_one_pos (phi : R) : 0 < phi < PI -> alphaTilt 1 phi = phi / 2.
Proof.
  intros [H0 H1]. unfold alphaTilt, float_T. rewrite !Rmult_1_l.
  rewrite atan2_pos_x by (apply sin_gt_0; lra).
  replace phi with (2 * (phi / 2)) at 1 2 by field.
  rewrite half_angle_quotient.
  - apply atan_tan. lra.
  - apply Rgt_not_eq. apply sin_gt_0; lra.
  - apply Rgt_not_eq. apply cos_gt_0; lra.
Qed.

Lemma alphaTilt_one_neg (phi : R) :
  - PI < phi < 0 -> alphaTilt 1 phi = phi / 2 + PI.
Proof.
  intros [H0 H1]. unfold alphaTilt, float_T. rewrite !Rmult_1_l.
  assert (Hs : sin phi < 0) by (apply sin_lt_0_var; lra).
  assert (Hc : 0 <= 1 - cos phi) by (pose proof (COS_bound phi); lra).
  rewrite atan2_neg_x_nonneg_y by assumption.
  replace phi with (2 * (phi / 2)) at 1 2 by field.
  rewrite half_angle_quotient.
  - rewrite atan_tan by lra. reflexivity.
  - apply Rlt_not_eq. apply sin_lt_0_var; lra.
  - apply Rgt_not_eq. apply cos_gt_0; lra.
Qed.

Lemma alphaTilt_one_PI : alphaTilt 1 PI = PI / 2.
Proof.
  unfold alphaTilt, float_T. rewrite !Rmult_1_l, sin_PI, cos_PI.
  apply atan2_zero_x_pos_y. lra.
Qed.

Lemma alphaTilt_one_0 : alphaTilt 1 0 = 0.
Proof.
  unfold alphaTilt, float_T. rewrite !Rmult_1_l, sin_0, cos_0.
  replace (1 - 1) with 0 by ring. apply atan2_origin.
Qed.

(** C2, as stated, fails: phi = -PI/2 is a valid incidence angle, and with
    beta0 = 1 the tilt angle there is 3*PI/2, a full turn away from phi. *)
Lemma phiT_differs_from_negative_phi :
  - PI < - (PI / 2) <= PI
  /\ phiT 1 (- (PI / 2)) = 3 * PI / 2
  /\ phiT 1 (- (PI / 2)) <> - (PI / 2).
Proof.
  pose proof PI_RGT_0 as Hpi.
  assert (Hval : phiT 1 (- (PI / 2)) = 3 * PI / 2).
  { unfold phiT, float_T. rewrite alphaTilt_one_neg by lra. field. }
  split; [lra |]. split; [exact Hval |]. rewrite Hval. lra.
Qed.

(** C2 (amended): the tilt angle is phiT = 2*atan2(1 - beta0*cos(phi),
    beta0*sin(phi)); with beta0 = 1 it equals phi exactly for phi in [0, PI],
    and equals phi + 2*PI (the same direction, one full turn on) for phi in
    (-PI, 0). *)
Theorem phiT_at_unit_overlap_speed (beta0 phi : R) :
  - PI < phi <= PI ->
  phiT beta0 phi = 2 * atan2 (1 - beta0 * cos phi) (beta0 * sin phi)
  /\ phiT 1 phi = if Rle_dec 0 phi then phi else phi + 2 * PI.
Proof.
  intros [Hlo Hhi]. split; [reflexivity |].
  unfold phiT, float_T.
  destruct (Rle_dec 0 phi) as [Hle | Hnle].
  - destruct (Req_dec phi 0) as [-> | Hn0].
    + rewrite alphaTilt_one_0. ring.
    + destruct (Req_dec phi PI) as [-> | HnPI].
      * rewrite alphaTilt_one_PI. field.
      * rewrite alphaTilt_one_pos by lra. field.
  - rewrite alphaTilt_one_neg by lra. field.
Qed.

Lemma phiT_at_unit_overlap_speed_witness :
  - PI < PI / 2 <= PI
  /\ phiT 1 (PI / 2) = 2 * atan2 (1 - 1 * cos (PI / 2)) (1 * sin (PI / 2))
  /\ phiT 1 (PI / 2) = if Rle_dec 0 (PI / 2) then PI / 2 else PI / 2 + 2 * PI.
Proof.
  assert (H : - PI < PI / 2 <= PI) by (pose proof PI_RGT_0; lra).
  split; [exact H | exact (phiT_at_unit_overlap_speed 1 (PI / 2) H)].
Defined.

(** ** Time-Delay Calculator *)

(** C3: with auto delay enabled the calculator returns
    (y1 + y2 + y3) / (c * beta0), where eta = PI/2 - phi/2, y1 is the
    half-domain extent in cells (depth axis in 3-D, width axis in 2-D) times
    that axis's cell size times |cos(eta)|, y2 = 3 * pulseLength * c /
    cos(eta) and y3 = focusY. *)
Theorem get_tdelay_SI_auto (si : SI) (tdelay_user_SI : R)
    (halfSimSize3 : DataSpace DIM3) (halfSimSize2 : DataSpace DIM2)
    (pulselength_SI focus_y_SI phi beta_0 : R) :
  let c := SPEED_OF_LIGHT_SI si in
  let eta := PI / 2 - phi / 2 in
  let y2 := 3 * pulselength_SI * c / cos eta in
  let y3 := focus_y_SI in
  detail.get_tdelay_SI_call (T_dim := DIM3) si true tdelay_user_SI halfSimSize3
    pulselength_SI focus_y_SI phi beta_0
  = (IZR (vget 2 0%Z halfSimSize3) * CELL_DEPTH_SI si * Rabs (cos eta)
     + y2 + y3) / (c * beta_0)
  /\ detail.get_tdelay_SI_call (T_dim := DIM2) si true tdelay_user_SI
       halfSimSize2 pulselength_SI focus_y_SI phi beta_0
     = (IZR (vget 0 0%Z halfSimSize2) * CELL_WIDTH_SI si * Rabs (cos eta)
        + y2 + y3) / (c * beta_0).
Proof.
  cbv zeta.
  unfold detail.get_tdelay_SI_call, detail.get_tdelay_SI_DIM3,
    detail.get_tdelay_SI_DIM2, float_64.
  split; f_equal; unfold Rdiv; ring.
Qed.

(** C7: with the auto-delay flag false the calculator returns the
    user-supplied delay unchanged, whatever the other parameters are. *)
Theorem get_tdelay_SI_user (si : SI) (tdelay_user_SI : R)
    (halfSimSize3 : DataSpace DIM3) (halfSimSize2 : DataSpace DIM2)
    (pulselength_SI focus_y_SI phi beta_0 : R) :
  detail.get_tdelay_SI_call (T_dim := DIM3) si false tdelay_user_SI
    halfSimSize3 pulselength_SI focus_y_SI phi beta_0 = tdelay_user_SI
  /\ detail.get_tdelay_SI_call (T_dim := DIM2) si false tdelay_user_SI
       halfSimSize2 pulselength_SI focus_y_SI phi beta_0 = tdelay_user_SI.
Proof. split; reflexivity. Qed.

Lemma sqrt2_bounds : 1.41 < sqrt 2 < 1.42.
Proof.
  split.
  - replace 1.41 with (sqrt (1.41 * 1.41)) by (apply sqrt_square; lra).
    apply sqrt_lt_1; lra.
  - replace 1.42 with (sqrt (1.42 * 1.42)) by (apply sqrt_square; lra).
    apply sqrt_lt_1; lra.
Qed.

Lemma div_half_sqrt2 (a : R) : a / (sqrt 2 / 2) = a * sqrt 2.
Proof.
  pose proof sqrt2_bounds as [Hlo Hhi].
  assert (Hsq : sqrt 2 * sqrt 2 = 2) by (apply sqrt_sqrt; lra).
  apply Rmult_eq_reg_r with (sqrt 2 / 2); [| lra].
  unfold Rdiv at 1. rewrite Rmult_assoc, Rinv_l by lra.
  transitivity (a * (sqrt 2 * sqrt 2) / 2); [rewrite Hsq; field | field].
Qed.

(** C8: for phi = PI/2, beta0 = 1, pulseLength = 5e-15 s, focusY = 0, a
    half-domain depth of 64 cells and a cell depth of 0.1e-6 m, with the speed
    of light 299792458 m/s, the auto delay of the 3-D calculator lies within
    1% of 3.63e-14 s (in exact arithmetic). *)
Theorem get_tdelay_SI_example (si : SI) (tdelay_user_SI : R)
    (halfSimSize : DataSpace DIM3) :
  SPEED_OF_LIGHT_SI si = 299792458 ->
  CELL_DEPTH_SI si = 0.1e-6 ->
  vget 2 0%Z halfSimSize = 64%Z ->
  Rabs (detail.get_tdelay_SI_call (T_dim := DIM3) si true tdelay_user_SI
          halfSimSize 5e-15 0 (PI / 2) 1
        - 3.63e-14)
  <= 0.01 * 3.63e-14.
Proof.
  intros Hc Hdepth Hhalf.
  unfold detail.get_tdelay_SI_call, detail.get_tdelay_SI_DIM3, float_64.
  rewrite Hc, Hdepth, Hhalf.
  cbv zeta.
  replace (PI / 2 - PI / 2 / 2) with (PI / 4) by field.
  rewrite cos_PI4.
  pose proof sqrt2_bounds as [Hlo Hhi].
  assert (Hsq : sqrt 2 * sqrt 2 = 2) by (apply sqrt_sqrt; lra).
  assert (Hinv : 1 / sqrt 2 = sqrt 2 / 2) by (field_simplify_eq; lra).
  rewrite Hinv.
  rewrite (Rabs_pos_eq (sqrt 2 / 2)) by lra.
  rewrite div_half_sqrt2.
  apply Rabs_le. split; nra.
Qed.

Lemma get_tdelay_SI_example_witness :
  Rabs (detail.get_tdelay_SI_call (T_dim := DIM3) sample_SI true 0
          sample_cell 5e-15 0 (PI / 2) 1
        - 3.63e-14)
  <= 0.01 * 3.63e-14.
Proof.
  apply (get_tdelay_SI_example sample_SI 0 sample_cell); reflexivity.
Defined.

(** ** Position Mapper *)

Lemma vmap_ext_3 {A B : Type} (f g : A -> B) (v : Vector A 3) :
  (forall a, f a = g a) -> vmap f v = vmap g v.
Proof.
  intros H. destruct v as [a [b [c []]]]. cbn. rewrite !H. reflexivity.
Qed.

Lemma rotated_offset_position_3 (off idx origin cellDims : Vector R 3) (phi : R) :
  detail.rotateField (vmul (vadd off (vsub idx origin)) cellDims) phi
  = detail.rotateField (vmul (vsub (vadd idx off) origin) cellDims) phi.
Proof.
  destruct_vec3 off. destruct_vec3 idx. destruct_vec3 origin.
  destruct_vec3 cellDims.
  rewrite !rotateField_Vector3_components.
  apply mk_float3_eq;
    unfold get_x, get_y, get_z, vmul, vadd, vsub; cbn [vzip vget fst snd];
    ring.
Qed.

Lemma mk_float2_eq (a b a' b' : R) :
  a = a' -> b = b' -> mk_float2 a b = mk_float2 a' b'.
Proof. intros -> ->. reflexivity. Qed.

Lemma rotateField_Vector2_components (v : Vector R 2) (phi : R) :
  detail.rotateField v phi
  = mk_float2 (- sin phi * get_y v - cos phi * get_x v)
              (cos phi * get_y v - sin phi * get_x v).
Proof. reflexivity. Qed.

Lemma rotated_offset_position_2 (off idx origin cellDims : Vector R 2) (phi : R) :
  detail.rotateField (vmul (vadd off (vsub idx origin)) cellDims) phi
  = detail.rotateField (vmul (vsub (vadd idx off) origin) cellDims) phi.
Proof.
  destruct_vec2 off. destruct_vec2 idx. destruct_vec2 origin.
  destruct_vec2 cellDims.
  rewrite !rotateField_Vector2_components.
  apply mk_float2_eq;
    unfold get_x, get_y, vmul, vadd, vsub; cbn [vzip vget fst snd];
    ring.
Qed.

(** C6, as stated, fails: in the sample configuration the half-extent is 64
    cells on every axis and the focus offset is 0, so the laser origin of the
    stated formula is cell 64 along y, while the code's laser origin is cell 0
    along y; the mapped position of the Ex component of cell (64, 64, 64)
    differs. *)
Lemma getEfieldPositions_SI_not_shifted_half_extent :
  let cellDimensions :=
    vscale (cellSize sample_simulation) (TWTSFieldE.unit_length sample_E) in
  vget 0 (vconst DIM3 0)
    (result_of (TWTSFieldE.getEfieldPositions_SI sample_cell
                  sample_simulation sample_E))
  <> mapPosition_spec
       (laserOrigin_spec (TWTSFieldE.halfSimSize sample_E)
          (TWTSFieldE.focus_y_SI sample_E) (get_y cellDimensions))
       sample_cell
       (vget 0 (vconst DIM3 0) (getEFieldPosition sample_simulation))
       cellDimensions (TWTSFieldE.phi sample_E).
Proof.
  cbv zeta. intros H.
  apply (f_equal get_y) in H.
  unfold mapPosition_spec, laserOrigin_spec in H.
  rewrite !rotateField_Vector3_components in H.
  unfold get_y, get_z, get_x, set_y, mk_float3 in H.
  cbn in H.
  unfold float_X in H.
  rewrite sin_PI2, cos_PI2 in H.
  lra.
Qed.

(** C6 (amended): for every cell index and field component the Position
    Mapper (E positions in 3-D and 2-D, B positions in 3-D) produces the
    rotation, by the fixed matrix at angle phi, of
    (cellIndex + Yee offset - laserOrigin) * (cellSize * unit_length), where
    laserOrigin is the domain half-extent in cells with its y component
    replaced by focusY / (cellSizeY * unit_length). *)
Theorem field_positions_SI_rotated_offsets
    (sim3 : Simulation DIM3) (sim2 : Simulation DIM2)
    (E3 : TWTSFieldE.members DIM3) (E2 : TWTSFieldE.members DIM2)
    (B3 : TWTSFieldB.members DIM3)
    (cellIdx3 : DataSpace DIM3) (cellIdx2 : DataSpace DIM2) :
  result_of (TWTSFieldE.getEfieldPositions_SI cellIdx3 sim3 E3)
  = (let cellDimensions := vscale (cellSize sim3) (TWTSFieldE.unit_length E3) in
     vmap (fun offset =>
             mapPosition_spec
               (laserOrigin_code (TWTSFieldE.halfSimSize E3)
                  (TWTSFieldE.focus_y_SI E3) (get_y cellDimensions))
               cellIdx3 offset cellDimensions (TWTSFieldE.phi E3))
       (getEFieldPosition sim3))
  /\ result_of (TWTSFieldE.getEfieldPositions_SI cellIdx2 sim2 E2)
     = (let cellDimensions := vscale (cellSize sim2) (TWTSFieldE.unit_length E2) in
        vmap (fun offset =>
                mapPosition_spec
                  (laserOrigin_code (TWTSFieldE.halfSimSize E2)
                     (TWTSFieldE.focus_y_SI E2) (get_y cellDimensions))
                  cellIdx2 offset cellDimensions (TWTSFieldE.phi E2))
          (getEFieldPosition sim2))
  /\ result_of (TWTSFieldB.getBfieldPositions_SI_call cellIdx3 sim3 B3)
     = (let cellDimensions := vscale (cellSize sim3) (TWTSFieldB.unit_length B3) in
        vmap (fun offset =>
                mapPosition_spec
                  (laserOrigin_code (TWTSFieldB.halfSimSize B3)
                     (TWTSFieldB.focus_y_SI B3) (get_y cellDimensions))
                  cellIdx3 offset cellDimensions (TWTSFieldB.phi B3))
          (getBFieldPosition sim3)).
Proof.
  repeat split.
  - unfold TWTSFieldE.getEfieldPositions_SI, result_of, bind, get_this,
      globals, ret, mapPosition_spec, laserOrigin_code, float_X.
    cbn [fst snd]. cbv zeta.
    apply vmap_ext_3. intros off. apply rotated_offset_position_3.
  - unfold TWTSFieldE.getEfieldPositions_SI, result_of, bind, get_this,
      globals, ret, mapPosition_spec, laserOrigin_code, float_X.
    cbn [fst snd]. cbv zeta.
    apply vmap_ext_3. intros off. apply rotated_offset_position_2.
  - unfold TWTSFieldB.getBfieldPositions_SI_call,
      TWTSFieldB.getBfieldPositions_SI_DIM3, result_of, bind, get_this,
      globals, ret, mapPosition_spec, laserOrigin_code, float_X.
    cbn [fst snd]. cbv zeta.
    apply vmap_ext_3. intros off. apply rotated_offset_position_3.
Qed.

(** ** Dimensional Specializer and Field Functor *)

(** A computation that only reads (hands back the object it was given and
    evaluates no closed form) can be replaced by its value. *)
Lemma bind_run_pure {simDim : nat} {S A B : Type}
    (m : M simDim S A) (k : A -> M simDim S B)
    (sim : Simulation simDim) (s : S) (a : A) :
  m sim s = (a, s, []) -> bind m k sim s = k a sim s.
Proof.
  intros H. unfold bind. rewrite H. cbn [fst snd app].
  destruct (k a sim s) as [[b s'] l]. reflexivity.
Qed.

Lemma TWTSFieldB_operator_call_DIM3 (sim : Simulation DIM3)
    (this : TWTSFieldB.members DIM3) (cellIdx : DataSpace DIM3)
    (currentStep : N) :
  TWTSFieldB.operator_call cellIdx currentStep sim this
  = TWTSFieldB.getTWTSBfield_Normalized_call (T_dim := DIM3)
      (result_of (TWTSFieldB.getBfieldPositions_SI_call cellIdx sim this))
      (IZR (Z.of_N currentStep) * TWTSFieldB.dt this - TWTSFieldB.tdelay this)
      sim this.
Proof.
  unfold TWTSFieldB.operator_call.
  rewrite (bind_run_pure get_this _ sim this this eq_refl).
  cbv beta zeta.
  rewrite (bind_run_pure (TWTSFieldB.getBfieldPositions_SI_call cellIdx) _
             sim this
             (result_of (TWTSFieldB.getBfieldPositions_SI_call cellIdx sim this))).
  - reflexivity.
  - reflexivity.
Qed.

(** C4: a 3-D magnetic-field evaluation performs exactly 4 closed-form
    evaluations (By and Bz at the By-offset position, then By and Bz at the
    Bz-offset position) and returns (0, By_out, Bz_out) with
    By_out = -sin(phi)*By(posAtByOffset) + cos(phi)*Bz(posAtByOffset) and
    Bz_out = -cos(phi)*By(posAtBzOffset) - sin(phi)*Bz(posAtBzOffset);
    operator() is this evaluation on the mapped positions of the cell at the
    time currentStep * dt - tdelay. *)
Theorem getTWTSBfield_Normalized_DIM3_four_evaluations
    (sim : Simulation DIM3) (this : TWTSFieldB.members DIM3)
    (bFieldPositions_SI : Vector (floatD_64 DIM3) numComponents) (time : R)
    (cellIdx : DataSpace DIM3) (currentStep : N) :
  let r := TWTSFieldB.getTWTSBfield_Normalized_call (T_dim := DIM3)
             bFieldPositions_SI time sim this in
  let posAtByOffset := vget 1 (vconst DIM3 0) bFieldPositions_SI in
  let posAtBzOffset := vget 2 (vconst DIM3 0) bFieldPositions_SI in
  let calcBy pos :=
    TWTSFieldB.calcTWTSBy (si sim) (pmMath_impl sim) this pos time in
  let calcBz pos :=
    TWTSFieldB.calcTWTSBz (si sim) (pmMath_impl sim) this pos time in
  let phi := TWTSFieldB.phi this in
  let r_op := TWTSFieldB.operator_call cellIdx currentStep sim this in
  let r_mapped :=
    TWTSFieldB.getTWTSBfield_Normalized_call (T_dim := DIM3)
      (result_of (TWTSFieldB.getBfieldPositions_SI_call cellIdx sim this))
      (IZR (Z.of_N currentStep) * TWTSFieldB.dt this - TWTSFieldB.tdelay this)
      sim this in
  calls_of r = [mkCall By posAtByOffset time; mkCall Bz posAtByOffset time;
                mkCall By posAtBzOffset time; mkCall Bz posAtBzOffset time]
  /\ length (calls_of r) = 4%nat
  /\ result_of r
     = mk_float3 0
         (- sin phi * calcBy posAtByOffset + cos phi * calcBz posAtByOffset)
         (- cos phi * calcBy posAtBzOffset - sin phi * calcBz posAtBzOffset)
  /\ calls_of r_op = calls_of r_mapped
  /\ result_of r_op = result_of r_mapped
  /\ length (calls_of r_op) = 4%nat.
Proof.
  cbv zeta. rewrite TWTSFieldB_operator_call_DIM3.
  destruct_vec3x3 bFieldPositions_SI.
  repeat split.
Qed.

(** C5: what the 2-D specialisers do.  The electric one evaluates Ex once,
    at the position taken from the Ez offset, and returns (0, 0, E).  The
    magnetic one evaluates By and Bz at the By-offset and at the Bx-offset
    positions, flips the sign of Bz to obtain the Bx values, and combines them
    into By_rot and Bx_rot; it then returns (0, By_rot, Bx_rot): the x
    component of the returned field is 0 (also for operator()) and Bx_rot
    sits in the z component, although the function's own comments map the
    model Bz to the simulation -Bx. *)
Theorem getTWTSfield_Normalized_DIM2_layout
    (sim : Simulation DIM2)
    (thisE : TWTSFieldE.members DIM2) (thisB : TWTSFieldB.members DIM2)
    (eFieldPositions_SI bFieldPositions_SI : Vector (floatD_64 DIM2) numComponents)
    (time : R) (cellIdx : DataSpace DIM2) (currentStep : N) :
  let model_pos (p : floatD_64 DIM2) := mk_float3 0 (get_y p) 0 in
  let rE := TWTSFieldE.getTWTSEfield_Normalized_call (T_dim := DIM2)
              eFieldPositions_SI time sim thisE in
  let posEz := model_pos (vget 2 (vconst DIM2 0) eFieldPositions_SI) in
  let rB := TWTSFieldB.getTWTSBfield_Normalized_call (T_dim := DIM2)
              bFieldPositions_SI time sim thisB in
  let posBx := model_pos (vget 0 (vconst DIM2 0) bFieldPositions_SI) in
  let posBy := model_pos (vget 1 (vconst DIM2 0) bFieldPositions_SI) in
  let calcBy pos :=
    TWTSFieldB.calcTWTSBy (si sim) (pmMath_impl sim) thisB pos time in
  let calcBz pos :=
    TWTSFieldB.calcTWTSBz (si sim) (pmMath_impl sim) thisB pos time in
  let phi := TWTSFieldB.phi thisB in
  let By_rot := - sin phi * calcBy posBy + cos phi * (- calcBz posBy) in
  let Bx_rot := - cos phi * calcBy posBx - sin phi * (- calcBz posBx) in
  (calls_of rE = [mkCall Ex posEz time]
   /\ result_of rE
      = mk_float3 0 0
          (TWTSFieldE.calcTWTSEx (si sim) (pmMath_impl sim) thisE posEz time))
  /\ (calls_of rB = [mkCall By posBy time; mkCall Bz posBy time;
                     mkCall By posBx time; mkCall Bz posBx time]
      /\ result_of rB = mk_float3 0 By_rot Bx_rot
      /\ get_x (result_of rB) = 0
      /\ get_z (result_of rB) = Bx_rot)
  /\ get_x (result_of (TWTSFieldB.operator_call cellIdx currentStep sim thisB))
     = 0.
Proof.
  destruct_vec2x3 eFieldPositions_SI.
  destruct_vec2x3 bFieldPositions_SI.
  repeat split.
Qed.

(** C9: for a fixed functor object (E or B, 2-D or 3-D), two invocations of
    operator() with the same cell index and the same timestep return the same
    field vector, and neither invocation changes the object. *)
Theorem operator_call_is_pure
    (sim2 : Simulation DIM2) (sim3 : Simulation DIM3)
    (E2 : TWTSFieldE.members DIM2) (E3 : TWTSFieldE.members DIM3)
    (B2 : TWTSFieldB.members DIM2) (B3 : TWTSFieldB.members DIM3)
    (cellIdx2 : DataSpace DIM2) (cellIdx3 : DataSpace DIM3) (currentStep : N) :
  (let r1 := TWTSFieldE.operator_call cellIdx2 currentStep sim2 E2 in
   let r2 := TWTSFieldE.operator_call cellIdx2 currentStep sim2 (object_after r1) in
   result_of r1 = result_of r2 /\ object_after r1 = E2 /\ object_after r2 = E2)
  /\ (let r1 := TWTSFieldE.operator_call cellIdx3 currentStep sim3 E3 in
      let r2 := TWTSFieldE.operator_call cellIdx3 currentStep sim3 (object_after r1) in
      result_of r1 = result_of r2 /\ object_after r1 = E3 /\ object_after r2 = E3)
  /\ (let r1 := TWTSFieldB.operator_call cellIdx2 currentStep sim2 B2 in
      let r2 := TWTSFieldB.operator_call cellIdx2 currentStep sim2 (object_after r1) in
      result_of r1 = result_of r2 /\ object_after r1 = B2 /\ object_after r2 = B2)
  /\ (let r1 := TWTSFieldB.operator_call cellIdx3 currentStep sim3 B3 in
      let r2 := TWTSFieldB.operator_call cellIdx3 currentStep sim3 (object_after r1) in
      result_of r1 = result_of r2 /\ object_after r1 = B3 /\ object_after r2 = B3).
Proof.
  repeat split.
Qed.

(** C10: in every 2-D evaluation the model x-coordinate handed to the
    closed-form evaluators (calcTWTSEx, calcTWTSBy, calcTWTSBz) is exactly 0,
    for the specialisers on any mapped positions and hence for operator(). *)
Theorem DIM2_evaluations_at_x_zero
    (sim : Simulation DIM2)
    (thisE : TWTSFieldE.members DIM2) (thisB : TWTSFieldB.members DIM2)
    (positions : Vector (floatD_64 DIM2) numComponents) (time : R)
    (cellIdx : DataSpace DIM2) (currentStep : N) :
  let x_is_zero (c : Call) := get_x (call_pos c) = 0 in
  Forall x_is_zero
    (calls_of (TWTSFieldE.getTWTSEfield_Normalized_call (T_dim := DIM2)
                 positions time sim thisE))
  /\ Forall x_is_zero
       (calls_of (TWTSFieldB.getTWTSBfield_Normalized_call (T_dim := DIM2)
                    positions time sim thisB))
  /\ Forall x_is_zero
       (calls_of (TWTSFieldE.operator_call cellIdx currentStep sim thisE))
  /\ Forall x_is_zero
       (calls_of (TWTSFieldB.operator_call cellIdx currentStep sim thisB)).
Proof.
  cbv zeta.
  destruct_vec2x3 positions.
  repeat split; repeat constructor.
Qed.

(** * Further properties of the code *)

(** ** Rotation Transform *)

Lemma rotation_square_sum (s c a b : R) :
  s * s + c * c = 1 ->
  (- s * a - c * b) * (- s * a - c * b) + (c * a - s * b) * (c * a - s * b)
  = a * a + b * b.
Proof.
  intros H.
  transitivity ((s * s + c * c) * (a * a + b * b)); [ring | rewrite H; ring].
Qed.

Lemma back_rotation_square_sum (s c a b : R) :
  s * s + c * c = 1 ->
  (- s * a + c * b) * (- s * a + c * b) + (- c * a - s * b) * (- c * a - s * b)
  = a * a + b * b.
Proof.
  intros H.
  transitivity ((s * s + c * c) * (a * a + b * b)); [ring | rewrite H; ring].
Qed.

(** X1: rotateField is an isometry.  On a 3-component vector it keeps x and
    the length of the pair (y, z); on a 2-component vector it keeps the
    length of (x, y). *)
Theorem rotateField_preserves_length (v3 : Vector R 3) (v2 : Vector R 2)
    (phi : R) :
  (let v' := detail.rotateField v3 phi in
   get_x v' = get_x v3
   /\ get_y v' * get_y v' + get_z v' * get_z v'
      = get_y v3 * get_y v3 + get_z v3 * get_z v3)
  /\ (let v' := detail.rotateField v2 phi in
      get_x v' * get_x v' + get_y v' * get_y v'
      = get_x v2 * get_x v2 + get_y v2 * get_y v2).
Proof.
  destruct v3 as [x3 [y3 [z3 []]]]. destruct v2 as [x2 [y2 []]]. cbv zeta.
  rewrite rotateField_Vector3_components, rotateField_Vector2_components.
  unfold mk_float3, mk_float2, get_x, get_y, get_z. cbn [vget fst snd].
  pose proof (sin_cos_square phi) as H.
  repeat split.
  - apply rotation_square_sum; assumption.
  - rewrite (rotation_square_sum _ _ y2 x2 H). ring.
Qed.

(** X2: two applications of rotateField, at angles a and b, keep x and act on
    (y, z) by y'' = -cos(a+b)*y + sin(a+b)*z, z'' = -sin(a+b)*y - cos(a+b)*z:
    the angles add, with an extra half turn. *)
Theorem rotateField_twice (v : Vector R 3) (a b : R) :
  detail.rotateField (detail.rotateField v a) b
  = mk_float3 (get_x v)
      (- cos (a + b) * get_y v + sin (a + b) * get_z v)
      (- sin (a + b) * get_y v - cos (a + b) * get_z v).
Proof.
  destruct_vec3 v.
  rewrite !rotateField_Vector3_components.
  rewrite sin_plus, cos_plus.
  apply mk_float3_eq; unfold mk_float3, get_x, get_y, get_z; cbn [vget fst snd];
    ring.
Qed.

(** X3: the 2-component rotateField yields the last two components of the
    3-component rotateField applied to (x3d, y, x), whatever x3d is: the 2-D
    x coordinate stands in for the 3-D z coordinate, as the comment in the
    2-component specialisation says. *)
Theorem rotateField_Vector2_from_Vector3 (v : Vector R 2) (x3d phi : R) :
  let v3 := detail.rotateField (mk_float3 x3d (get_y v) (get_x v)) phi in
  detail.rotateField v phi = mk_float2 (get_y v3) (get_z v3).
Proof.
  destruct_vec2 v. cbv zeta.
  rewrite rotateField_Vector3_components, rotateField_Vector2_components.
  reflexivity.
Qed.

(** ** Tilt angle for a general overlap speed *)

Lemma atan2_neg_x_neg_y (y x : R) :
  x < 0 -> y < 0 -> atan2 y x = atan (y / x) - PI.
Proof.
  intros Hx Hy. unfold atan2.
  destruct (Rlt_dec 0 x); [lra |].
  destruct (Rlt_dec x 0); [| lra].
  destruct (Rle_dec 0 y); [lra | reflexivity].
Qed.

(** X4: for beta0 > 0 and 0 < phi < PI the tilt angle lies strictly between
    -PI and PI, and its half angle has tangent
    (1 - beta0*cos(phi)) / (beta0*sin(phi)). *)
Theorem phiT_half_angle_tangent (beta0 phi : R) :
  0 < beta0 -> 0 < phi < PI ->
  - PI < phiT beta0 phi < PI
  /\ tan (phiT beta0 phi / 2) = (1 - beta0 * cos phi) / (beta0 * sin phi).
Proof.
  intros Hb [H0 H1].
  assert (Hs : 0 < beta0 * sin phi).
  { apply Rmult_lt_0_compat; [assumption | apply sin_gt_0; lra]. }
  unfold phiT, alphaTilt, float_T.
  rewrite atan2_pos_x by assumption.
  pose proof (atan_bound ((1 - beta0 * cos phi) / (beta0 * sin phi)))
    as [Hlo Hhi].
  split; [lra |].
  replace (2 * atan ((1 - beta0 * cos phi) / (beta0 * sin phi)) / 2)
    with (atan ((1 - beta0 * cos phi) / (beta0 * sin phi))) by field.
  apply tan_atan.
Qed.

Lemma phiT_half_angle_tangent_witness :
  - PI < phiT 1 (PI / 2) < PI
  /\ tan (phiT 1 (PI / 2) / 2) = (1 - 1 * cos (PI / 2)) / (1 * sin (PI / 2)).
Proof.
  apply (phiT_half_angle_tangent 1 (PI / 2)); pose proof PI_RGT_0; lra.
Defined.

(** X5: negating the incidence angle negates the tilt angle up to a full
    turn.  For beta0 > 0 and 0 < phi < PI, the tilt angle at -phi is
    2*PI - phiT(phi) when beta0*cos(phi) <= 1, and -2*PI - phiT(phi)
    otherwise. *)
Theorem phiT_negated_angle (beta0 phi : R) :
  0 < beta0 -> 0 < phi < PI ->
  phiT beta0 (- phi)
  = if Rle_dec 0 (1 - beta0 * cos phi)
    then 2 * PI - phiT beta0 phi
    else - (2 * PI) - phiT beta0 phi.
Proof.
  intros Hb [H0 H1].
  assert (Hs : 0 < beta0 * sin phi).
  { apply Rmult_lt_0_compat; [assumption | apply sin_gt_0; lra]. }
  unfold phiT, alphaTilt, float_T.
  rewrite sin_neg, cos_neg.
  rewrite (atan2_pos_x _ (beta0 * sin phi)) by assumption.
  replace (beta0 * - sin phi) with (- (beta0 * sin phi)) by ring.
  destruct (Rle_dec 0 (1 - beta0 * cos phi)) as [Hy | Hy].
  - rewrite atan2_neg_x_nonneg_y by lra.
    rewrite Rdiv_opp_r, atan_opp. ring.
  - rewrite atan2_neg_x_neg_y by lra.
    rewrite Rdiv_opp_r, atan_opp. ring.
Qed.

Lemma phiT_negated_angle_witness :
  phiT 1 (- (PI / 2))
  = if Rle_dec 0 (1 - 1 * cos (PI / 2))
    then 2 * PI - phiT 1 (PI / 2)
    else - (2 * PI) - phiT 1 (PI / 2).
Proof.
  apply (phiT_negated_angle 1 (PI / 2)); pose proof PI_RGT_0; lra.
Defined.

(** ** Time-Delay Calculator *)

Lemma cos_eta_range (phi : R) :
  0 < phi <= PI -> 0 < cos (PI / 2 - phi / 2) <= 1.
Proof.
  intros [H0 H1]. split.
  - apply cos_gt_0; lra.
  - pose proof (COS_bound (PI / 2 - phi / 2)). lra.
Qed.

Lemma auto_delay_formula_lower_bound (h cell c beta0 pulse focus phi : R) :
  0 <= h -> 0 <= cell -> 0 < c -> 0 < beta0 -> 0 < pulse -> 0 <= focus ->
  0 < phi <= PI ->
  3 * pulse / beta0
  <= (h * cell * Rabs (cos (PI / 2 - phi / 2))
      + 3 * (pulse * c) / cos (PI / 2 - phi / 2) + focus) / (c * beta0).
Proof.
  intros Hh Hcell Hc Hb Hp Hf Hphi.
  pose proof (cos_eta_range phi Hphi) as [Hc0 Hc1].
  set (C := cos (PI / 2 - phi / 2)) in *.
  assert (Hy1 : 0 <= h * cell * Rabs C).
  { apply Rmult_le_pos; [apply Rmult_le_pos; assumption | apply Rabs_pos]. }
  assert (Hy2 : 3 * (pulse * c) <= 3 * (pulse * c) / C).
  { assert (Hinv : 1 <= / C).
    { rewrite <- Rinv_1. apply Rinv_le_contravar; lra. }
    assert (0 < pulse * c) by (apply Rmult_lt_0_compat; assumption).
    unfold Rdiv. nra. }
  assert (Hcb : 0 < c * beta0) by (apply Rmult_lt_0_compat; assumption).
  replace (3 * pulse / beta0) with (3 * (pulse * c) / (c * beta0))
    by (field; lra).
  apply Rmult_le_compat_r; [left; apply Rinv_0_lt_compat; assumption | lra].
Qed.

(** X6: for an incidence angle 0 < phi <= PI, positive speed of light, beta0
    and pulse length, and non-negative cell size, half-domain extent and
    focus offset, the automatic delay (3-D and 2-D) is at least
    3 * pulseLength / beta0. *)
Theorem get_tdelay_SI_auto_lower_bound (si : SI) (tdelay_user_SI : R)
    (halfSimSize3 : DataSpace DIM3) (halfSimSize2 : DataSpace DIM2)
    (pulselength_SI focus_y_SI phi beta_0 : R) :
  0 < SPEED_OF_LIGHT_SI si -> 0 <= CELL_DEPTH_SI si -> 0 <= CELL_WIDTH_SI si ->
  (0 <= vget 2 0 halfSimSize3)%Z -> (0 <= vget 0 0 halfSimSize2)%Z ->
  0 < beta_0 -> 0 < pulselength_SI -> 0 <= focus_y_SI -> 0 < phi <= PI ->
  3 * pulselength_SI / beta_0
    <= detail.get_tdelay_SI_call (T_dim := DIM3) si true tdelay_user_SI
         halfSimSize3 pulselength_SI focus_y_SI phi beta_0
  /\ 3 * pulselength_SI / beta_0
    <= detail.get_tdelay_SI_call (T_dim := DIM2) si true tdelay_user_SI
         halfSimSize2 pulselength_SI focus_y_SI phi beta_0.
Proof.
  intros Hc Hd Hw Hh3 Hh2 Hb Hp Hf Hphi.
  unfold detail.get_tdelay_SI_call, detail.get_tdelay_SI_DIM3,
    detail.get_tdelay_SI_DIM2, float_64. cbv zeta.
  split; apply auto_delay_formula_lower_bound;
    try assumption; apply IZR_le; assumption.
Qed.

Lemma get_tdelay_SI_auto_lower_bound_witness :
  3 * 5e-15 / 1
    <= detail.get_tdelay_SI_call (T_dim := DIM3) sample_SI true 0
         sample_cell 5e-15 0 (PI / 2) 1
  /\ 3 * 5e-15 / 1
    <= detail.get_tdelay_SI_call (T_dim := DIM2) sample_SI true 0
         (64%Z, (64%Z, tt)) 5e-15 0 (PI / 2) 1.
Proof.
  apply (get_tdelay_SI_auto_lower_bound sample_SI 0 sample_cell
           (64%Z, (64%Z, tt)) 5e-15 0 (PI / 2) 1);
    try (cbn [SPEED_OF_LIGHT_SI CELL_DEPTH_SI CELL_WIDTH_SI sample_SI]; lra);
    try discriminate.
  pose proof PI_RGT_0. lra.
Defined.

(** X7: the automatic delay at the negated incidence angle has the sign of
    the pulse-length margin y2 flipped: it is (y1 - y2 + y3) / (c * beta0),
    with y1, y2, y3 the terms of the delay at phi.  Only y1 goes through
    abs. *)
Theorem get_tdelay_SI_auto_negated_angle (si : SI) (tdelay_user_SI : R)
    (halfSimSize3 : DataSpace DIM3) (halfSimSize2 : DataSpace DIM2)
    (pulselength_SI focus_y_SI phi beta_0 : R) :
  let c := SPEED_OF_LIGHT_SI si in
  let eta := PI / 2 - phi / 2 in
  let y2 := 3 * pulselength_SI * c / cos eta in
  let y3 := focus_y_SI in
  detail.get_tdelay_SI_call (T_dim := DIM3) si true tdelay_user_SI halfSimSize3
    pulselength_SI focus_y_SI (- phi) beta_0
  = (IZR (vget 2 0%Z halfSimSize3) * CELL_DEPTH_SI si * Rabs (cos eta)
     - y2 + y3) / (c * beta_0)
  /\ detail.get_tdelay_SI_call (T_dim := DIM2) si true tdelay_user_SI
       halfSimSize2 pulselength_SI focus_y_SI (- phi) beta_0
     = (IZR (vget 0 0%Z halfSimSize2) * CELL_WIDTH_SI si * Rabs (cos eta)
        - y2 + y3) / (c * beta_0).
Proof.
  cbv zeta.
  unfold detail.get_tdelay_SI_call, detail.get_tdelay_SI_DIM3,
    detail.get_tdelay_SI_DIM2, float_64. cbv zeta.
  assert (Hcos : cos (PI / 2 - - phi / 2) = - cos (PI / 2 - phi / 2)).
  { replace (PI / 2 - - phi / 2) with (- (PI / 2 - phi / 2) + PI) by field.
    rewrite neg_cos, cos_neg. reflexivity. }
  rewrite Hcos, Rabs_Ropp, Rdiv_opp_r.
  split; f_equal; unfold Rdiv; ring.
Qed.

(** ** Closed-Form Field Evaluator *)

Lemma calcTWTSEx_eq_at_tilt {simDim : nat} (si : SI) (pmMath : ComplexMath)
    (this : TWTSFieldE.members simDim) (pos : float3_64) (time : R) :
  TWTSFieldE.calcTWTSEx si pmMath this pos time
  = calcTWTSEx_at_tilt si pmMath this
      (phiT (TWTSFieldE.beta_0 this) (TWTSFieldE.phi this)) pos time.
Proof. reflexivity. Qed.

Lemma calcTWTSBy_eq_at_tilt {simDim : nat} (si : SI) (pmMath : ComplexMath)
    (this : TWTSFieldB.members simDim) (pos : float3_64) (time : R) :
  TWTSFieldB.calcTWTSBy si pmMath this pos time
  = calcTWTSBy_at_tilt si pmMath this
      (phiT (TWTSFieldB.beta_0 this) (TWTSFieldB.phi this)) pos time.
Proof. reflexivity. Qed.

Lemma calcTWTSBz_eq_at_tilt {simDim : nat} (si : SI) (pmMath : ComplexMath)
    (this : TWTSFieldB.members simDim) (pos : float3_64) (time : R) :
  TWTSFieldB.calcTWTSBz si pmMath this pos time
  = calcTWTSBz_at_tilt si pmMath this
      (phiT (TWTSFieldB.beta_0 this) (TWTSFieldB.phi this)) pos time.
Proof. reflexivity. Qed.

(** A real factor that occurs twice in a row may change sign. *)
Lemma Cmul_opp_opp (a : Complex) (r : R) :
  (a * RtoC (- r) * RtoC (- r))%C = (a * RtoC r * RtoC r)%C.
Proof.
  destruct a as [re im]. unfold Cmul, RtoC. cbn [get_real get_imag].
  f_equal; ring.
Qed.

Lemma Cdiv_opp_opp (a : Complex) (r : R) :
  (a / RtoC (- r) / RtoC (- r))%C = (a / RtoC r / RtoC r)%C.
Proof.
  destruct a as [re im]. unfold Cdiv, RtoC. cbn [get_real get_imag].
  replace (- r * - r + 0 * 0) with (r * r + 0 * 0) by ring.
  cbv zeta.
  f_equal; unfold Rdiv; ring.
Qed.

Lemma sin_full_turn (a : R) : sin (a + 2 * PI) = sin a.
Proof. rewrite sin_plus, sin_2PI, cos_2PI. ring. Qed.

Lemma cos_full_turn (a : R) : cos (a + 2 * PI) = cos a.
Proof. rewrite cos_plus, sin_2PI, cos_2PI. ring. Qed.

Lemma sin_half_full_turn (a : R) : sin ((a + 2 * PI) / 2) = - sin (a / 2).
Proof.
  replace ((a + 2 * PI) / 2) with (a / 2 + PI) by field. apply neg_sin.
Qed.

Lemma cos_half_full_turn (a : R) : cos ((a + 2 * PI) / 2) = - cos (a / 2).
Proof.
  replace ((a + 2 * PI) / 2) with (a / 2 + PI) by field. apply neg_cos.
Qed.

Lemma tan_half_full_turn (a : R) : tan ((a + 2 * PI) / 2) = tan (a / 2).
Proof.
  unfold tan. rewrite sin_half_full_turn, cos_half_full_turn.
  rewrite Rdiv_opp_r, Rdiv_opp_l. ring.
Qed.

Lemma tan_complement_full_turn (a : R) :
  tan (PI / 2 - (a + 2 * PI)) = tan (PI / 2 - a).
Proof.
  unfold tan.
  replace (PI / 2 - a) with ((PI / 2 - (a + 2 * PI)) + 2 * PI) by ring.
  rewrite sin_full_turn, cos_full_turn. reflexivity.
Qed.

Lemma calcTWTSEx_at_tilt_full_turn {simDim : nat} (si : SI)
    (pmMath : ComplexMath) (this : TWTSFieldE.members simDim) (a : R)
    (pos : float3_64) (time : R) :
  calcTWTSEx_at_tilt si pmMath this (a + 2 * PI) pos time
  = calcTWTSEx_at_tilt si pmMath this a pos time.
Proof.
  unfold calcTWTSEx_at_tilt, float_T. cbv zeta.
  rewrite sin_full_turn, cos_full_turn, sin_half_full_turn, cos_half_full_turn,
    tan_half_full_turn, tan_complement_full_turn.
  rewrite !Cmul_opp_opp, !Cdiv_opp_opp.
  reflexivity.
Qed.

Lemma calcTWTSBy_at_tilt_full_turn {simDim : nat} (si : SI)
    (pmMath : ComplexMath) (this : TWTSFieldB.members simDim) (a : R)
    (pos : float3_64) (time : R) :
  calcTWTSBy_at_tilt si pmMath this (a + 2 * PI) pos time
  = calcTWTSBy_at_tilt si pmMath this a pos time.
Proof.
  unfold calcTWTSBy_at_tilt, float_T. cbv zeta.
  rewrite sin_full_turn, cos_full_turn, cos_half_full_turn,
    tan_half_full_turn, tan_complement_full_turn.
  rewrite !Cdiv_opp_opp.
  reflexivity.
Qed.

Lemma calcTWTSBz_at_tilt_full_turn {simDim : nat} (si : SI)
    (pmMath : ComplexMath) (this : TWTSFieldB.members simDim) (a : R)
    (pos : float3_64) (time : R) :
  calcTWTSBz_at_tilt si pmMath this (a + 2 * PI) pos time
  = calcTWTSBz_at_tilt si pmMath this a pos time.
Proof.
  unfold calcTWTSBz_at_tilt, float_T. cbv zeta.
  rewrite sin_full_turn, cos_full_turn, sin_half_full_turn, cos_half_full_turn,
    tan_half_full_turn, tan_complement_full_turn.
  rewrite !Cmul_opp_opp, !Cdiv_opp_opp.
  reflexivity.
Qed.

Lemma phiT_one_cases (phi : R) :
  - PI < phi <= PI -> phiT 1 phi = phi \/ phiT 1 phi = phi + 2 * PI.
Proof.
  intros [Hlo Hhi]. unfold phiT, float_T.
  destruct (Rle_dec 0 phi) as [Hle | Hnle].
  - left. destruct (Req_dec phi 0) as [-> | Hn0].
    + rewrite alphaTilt_one_0. ring.
    + destruct (Req_dec phi PI) as [-> | HnPI].
      * rewrite alphaTilt_one_PI. field.
      * rewrite alphaTilt_one_pos by lra. field.
  - right. rewrite alphaTilt_one_neg by lra. field.
Qed.

(** X8: the three closed forms are even in the model x coordinate: mirroring
    the position at the plane x = 0 leaves Ex, By and Bz unchanged (x enters
    each formula only as x*x). *)
Theorem evaluators_even_in_x {simDim : nat} (si : SI) (pmMath : ComplexMath)
    (thisE : TWTSFieldE.members simDim) (thisB : TWTSFieldB.members simDim)
    (x y z time : R) :
  TWTSFieldE.calcTWTSEx si pmMath thisE (mk_float3 (- x) y z) time
  = TWTSFieldE.calcTWTSEx si pmMath thisE (mk_float3 x y z) time
  /\ TWTSFieldB.calcTWTSBy si pmMath thisB (mk_float3 (- x) y z) time
     = TWTSFieldB.calcTWTSBy si pmMath thisB (mk_float3 x y z) time
  /\ TWTSFieldB.calcTWTSBz si pmMath thisB (mk_float3 (- x) y z) time
     = TWTSFieldB.calcTWTSBz si pmMath thisB (mk_float3 x y z) time.
Proof.
  repeat split.
  - unfold TWTSFieldE.calcTWTSEx, float_T, get_x, get_y, get_z, mk_float3.
    cbn [vget fst snd]. cbv zeta.
    rewrite Rdiv_opp_l, !Cmul_opp_opp. reflexivity.
  - unfold TWTSFieldB.calcTWTSBy, float_T, get_x, get_y, get_z, mk_float3.
    cbn [vget fst snd]. cbv zeta.
    rewrite Rdiv_opp_l, !Cmul_opp_opp. reflexivity.
  - unfold TWTSFieldB.calcTWTSBz, float_T, get_x, get_y, get_z, mk_float3.
    cbn [vget fst snd]. cbv zeta.
    rewrite Rdiv_opp_l, !Cmul_opp_opp. reflexivity.
Qed.

(** X9: each closed form, taken as a function of the tilt angle, is unchanged
    when the tilt angle grows by a full turn 2*PI: the half-angle sine and
    cosine change sign, and they enter the formulas only in pairs. *)
Theorem evaluators_tilt_full_turn {simDim : nat} (si : SI)
    (pmMath : ComplexMath)
    (thisE : TWTSFieldE.members simDim) (thisB : TWTSFieldB.members simDim)
    (tilt : R) (pos : float3_64) (time : R) :
  calcTWTSEx_at_tilt si pmMath thisE (tilt + 2 * PI) pos time
  = calcTWTSEx_at_tilt si pmMath thisE tilt pos time
  /\ calcTWTSBy_at_tilt si pmMath thisB (tilt + 2 * PI) pos time
     = calcTWTSBy_at_tilt si pmMath thisB tilt pos time
  /\ calcTWTSBz_at_tilt si pmMath thisB (tilt + 2 * PI) pos time
     = calcTWTSBz_at_tilt si pmMath thisB tilt pos time.
Proof.
  repeat split.
  - apply calcTWTSEx_at_tilt_full_turn.
  - apply calcTWTSBy_at_tilt_full_turn.
  - apply calcTWTSBz_at_tilt_full_turn.
Qed.

(** X10: with beta_0 = 1 and a valid incidence angle phi in (-PI, PI], each
    evaluator returns the value of its closed form at tilt angle phi itself,
    also for negative phi, where the computed tilt angle is phi + 2*PI. *)
Theorem evaluators_at_unit_overlap_speed {simDim : nat} (si : SI)
    (pmMath : ComplexMath)
    (thisE : TWTSFieldE.members simDim) (thisB : TWTSFieldB.members simDim)
    (pos : float3_64) (time : R) :
  TWTSFieldE.beta_0 thisE = 1 -> - PI < TWTSFieldE.phi thisE <= PI ->
  TWTSFieldB.beta_0 thisB = 1 -> - PI < TWTSFieldB.phi thisB <= PI ->
  TWTSFieldE.calcTWTSEx si pmMath thisE pos time
  = calcTWTSEx_at_tilt si pmMath thisE (TWTSFieldE.phi thisE) pos time
  /\ TWTSFieldB.calcTWTSBy si pmMath thisB pos time
     = calcTWTSBy_at_tilt si pmMath thisB (TWTSFieldB.phi thisB) pos time
  /\ TWTSFieldB.calcTWTSBz si pmMath thisB pos time
     = calcTWTSBz_at_tilt si pmMath thisB (TWTSFieldB.phi thisB) pos time.
Proof.
  intros HbE HphiE HbB HphiB.
  rewrite calcTWTSEx_eq_at_tilt, calcTWTSBy_eq_at_tilt, calcTWTSBz_eq_at_tilt.
  rewrite HbE, HbB.
  destruct (phiT_one_cases _ HphiE) as [-> | ->];
    destruct (phiT_one_cases _ HphiB) as [-> | ->];
    rewrite ?calcTWTSEx_at_tilt_full_turn, ?calcTWTSBy_at_tilt_full_turn,
      ?calcTWTSBz_at_tilt_full_turn;
    repeat split.
Qed.

Lemma evaluators_at_unit_overlap_speed_witness :
  TWTSFieldE.calcTWTSEx sample_SI (pmMath_impl sample_simulation) sample_E
    (mk_float3 0 0 0) 0
  = calcTWTSEx_at_tilt sample_SI (pmMath_impl sample_simulation) sample_E
      (TWTSFieldE.phi sample_E) (mk_float3 0 0 0) 0
  /\ TWTSFieldB.calcTWTSBy sample_SI (pmMath_impl sample_simulation) sample_B
       (mk_float3 0 0 0) 0
     = calcTWTSBy_at_tilt sample_SI (pmMath_impl sample_simulation) sample_B
         (TWTSFieldB.phi sample_B) (mk_float3 0 0 0) 0
  /\ TWTSFieldB.calcTWTSBz sample_SI (pmMath_impl sample_simulation) sample_B
       (mk_float3 0 0 0) 0
     = calcTWTSBz_at_tilt sample_SI (pmMath_impl sample_simulation) sample_B
         (TWTSFieldB.phi sample_B) (mk_float3 0 0 0) 0.
Proof.
  apply (evaluators_at_unit_overlap_speed sample_SI
           (pmMath_impl sample_simulation) sample_E sample_B
           (mk_float3 0 0 0) 0).
  - reflexivity.
  - cbn [TWTSFieldE.phi sample_E TWTSFieldE.construct]. pose proof PI_RGT_0. lra.
  - reflexivity.
  - cbn [TWTSFieldB.phi sample_B TWTSFieldB.construct]. pose proof PI_RGT_0. lra.
Defined.

(** ** Position Mapper and Field Functor, end to end *)

Lemma getEfieldPositions_SI_run {simDim : nat}
    `{detail.RotateField (floatD_64 simDim)}
    (sim : Simulation simDim) (this : TWTSFieldE.members simDim)
    (cellIdx : DataSpace simDim) :
  TWTSFieldE.getEfieldPositions_SI cellIdx sim this
  = (let cellDimensions := vscale (cellSize sim) (TWTSFieldE.unit_length this) in
     let laserOrigin :=
       laserOrigin_code (TWTSFieldE.halfSimSize this)
         (TWTSFieldE.focus_y_SI this) (get_y cellDimensions) in
     vmap (fun offset =>
             detail.rotateField
               (vmul (vadd offset (vsub (precisionCast cellIdx) laserOrigin))
                  cellDimensions)
               (TWTSFieldE.phi this))
       (getEFieldPosition sim),
     this, []).
Proof. reflexivity. Qed.

Lemma getBfieldPositions_SI_DIM3_run
    (sim : Simulation DIM3) (this : TWTSFieldB.members DIM3)
    (cellIdx : DataSpace DIM3) :
  TWTSFieldB.getBfieldPositions_SI_call cellIdx sim this
  = (let cellDimensions := vscale (cellSize sim) (TWTSFieldB.unit_length this) in
     let laserOrigin :=
       laserOrigin_code (TWTSFieldB.halfSimSize this)
         (TWTSFieldB.focus_y_SI this) (get_y cellDimensions) in
     vmap (fun offset =>
             detail.rotateField
               (vmul (vadd offset (vsub (precisionCast cellIdx) laserOrigin))
                  cellDimensions)
               (TWTSFieldB.phi this))
       (getBFieldPosition sim),
     this, []).
Proof. reflexivity. Qed.

Lemma getBfieldPositions_SI_DIM2_run
    (sim : Simulation DIM2) (this : TWTSFieldB.members DIM2)
    (cellIdx : DataSpace DIM2) :
  TWTSFieldB.getBfieldPositions_SI_call cellIdx sim this
  = (let cellDimensions := vscale (cellSize sim) (TWTSFieldB.unit_length this) in
     let laserOrigin :=
       laserOrigin_code (TWTSFieldB.halfSimSize this)
         (TWTSFieldB.focus_y_SI this) (get_y cellDimensions) in
     vmap (fun offset =>
             let p := vmul (vadd offset (vsub (precisionCast cellIdx) laserOrigin))
                        cellDimensions in
             detail.rotateField (set_y (get_x p) (set_x (get_y p) p))
               (TWTSFieldB.phi this))
       (getBFieldPosition sim),
     this, []).
Proof. reflexivity. Qed.

Lemma TWTSFieldE_operator_call_run {simDim : nat}
    `{detail.RotateField (floatD_64 simDim)}
    `{TWTSFieldE.getTWTSEfield_Normalized simDim}
    (sim : Simulation simDim) (this : TWTSFieldE.members simDim)
    (cellIdx : DataSpace simDim) (currentStep : N) :
  TWTSFieldE.operator_call cellIdx currentStep sim this
  = TWTSFieldE.getTWTSEfield_Normalized_call
      (result_of (TWTSFieldE.getEfieldPositions_SI cellIdx sim this))
      (IZR (Z.of_N currentStep) * TWTSFieldE.dt this - TWTSFieldE.tdelay this)
      sim this.
Proof.
  unfold TWTSFieldE.operator_call.
  rewrite (bind_run_pure get_this _ sim this this eq_refl).
  cbv beta zeta.
  rewrite (bind_run_pure (TWTSFieldE.getEfieldPositions_SI cellIdx) _ sim this
             (result_of (TWTSFieldE.getEfieldPositions_SI cellIdx sim this))).
  - reflexivity.
  - reflexivity.
Qed.

Lemma TWTSFieldB_operator_call_DIM2 (sim : Simulation DIM2)
    (this : TWTSFieldB.members DIM2) (cellIdx : DataSpace DIM2)
    (currentStep : N) :
  TWTSFieldB.operator_call cellIdx currentStep sim this
  = TWTSFieldB.getTWTSBfield_Normalized_call (T_dim := DIM2)
      (result_of (TWTSFieldB.getBfieldPositions_SI_call cellIdx sim this))
      (IZR (Z.of_N currentStep) * TWTSFieldB.dt this - TWTSFieldB.tdelay this)
      sim this.
Proof.
  unfold TWTSFieldB.operator_call.
  rewrite (bind_run_pure get_this _ sim this this eq_refl).
  cbv beta zeta.
  rewrite (bind_run_pure (TWTSFieldB.getBfieldPositions_SI_call cellIdx) _
             sim this
             (result_of (TWTSFieldB.getBfieldPositions_SI_call cellIdx sim this))).
  - reflexivity.
  - reflexivity.
Qed.

Lemma getTWTSEfield_Normalized_DIM3_run (sim : Simulation DIM3)
    (this : TWTSFieldE.members DIM3)
    (eFieldPositions_SI : Vector (floatD_64 DIM3) numComponents) (time : R) :
  TWTSFieldE.getTWTSEfield_Normalized_call (T_dim := DIM3)
    eFieldPositions_SI time sim this
  = (let pos := vget 0 (vconst DIM3 0) eFieldPositions_SI in
     (mk_float3
        (TWTSFieldE.calcTWTSEx (si sim) (pmMath_impl sim) this pos time) 0 0,
      this, [mkCall Ex pos time])).
Proof. destruct_vec3x3 eFieldPositions_SI. reflexivity. Qed.

Lemma getTWTSEfield_Normalized_DIM2_run (sim : Simulation DIM2)
    (this : TWTSFieldE.members DIM2)
    (eFieldPositions_SI : Vector (floatD_64 DIM2) numComponents) (time : R) :
  TWTSFieldE.getTWTSEfield_Normalized_call (T_dim := DIM2)
    eFieldPositions_SI time sim this
  = (let pos :=
       mk_float3 0 (get_y (vget 2 (vconst DIM2 0) eFieldPositions_SI)) 0 in
     (mk_float3 0 0
        (TWTSFieldE.calcTWTSEx (si sim) (pmMath_impl sim) this pos time),
      this, [mkCall Ex pos time])).
Proof. destruct_vec2x3 eFieldPositions_SI. reflexivity. Qed.

Lemma getTWTSBfield_Normalized_DIM3_run (sim : Simulation DIM3)
    (this : TWTSFieldB.members DIM3)
    (bFieldPositions_SI : Vector (floatD_64 DIM3) numComponents) (time : R) :
  TWTSFieldB.getTWTSBfield_Normalized_call (T_dim := DIM3)
    bFieldPositions_SI time sim this
  = (let pos1 := vget 1 (vconst DIM3 0) bFieldPositions_SI in
     let pos2 := vget 2 (vconst DIM3 0) bFieldPositions_SI in
     let calcBy pos :=
       TWTSFieldB.calcTWTSBy (si sim) (pmMath_impl sim) this pos time in
     let calcBz pos :=
       TWTSFieldB.calcTWTSBz (si sim) (pmMath_impl sim) this pos time in
     let phi := TWTSFieldB.phi this in
     (mk_float3 0
        (- sin phi * calcBy pos1 + cos phi * calcBz pos1)
        (- cos phi * calcBy pos2 - sin phi * calcBz pos2),
      this,
      [mkCall By pos1 time; mkCall Bz pos1 time;
       mkCall By pos2 time; mkCall Bz pos2 time])).
Proof. destruct_vec3x3 bFieldPositions_SI. reflexivity. Qed.

Lemma getTWTSBfield_Normalized_DIM2_run (sim : Simulation DIM2)
    (this : TWTSFieldB.members DIM2)
    (bFieldPositions_SI : Vector (floatD_64 DIM2) numComponents) (time : R) :
  TWTSFieldB.getTWTSBfield_Normalized_call (T_dim := DIM2)
    bFieldPositions_SI time sim this
  = (let pos1 :=
       mk_float3 0 (get_y (vget 1 (vconst DIM2 0) bFieldPositions_SI)) 0 in
     let pos0 :=
       mk_float3 0 (get_y (vget 0 (vconst DIM2 0) bFieldPositions_SI)) 0 in
     let calcBy pos :=
       TWTSFieldB.calcTWTSBy (si sim) (pmMath_impl sim) this pos time in
     let calcBz pos :=
       TWTSFieldB.calcTWTSBz (si sim) (pmMath_impl sim) this pos time in
     let phi := TWTSFieldB.phi this in
     (mk_float3 0
        (- sin phi * calcBy pos1 + cos phi * - calcBz pos1)
        (- cos phi * calcBy pos0 - sin phi * - calcBz pos0),
      this,
      [mkCall By pos1 time; mkCall Bz pos1 time;
       mkCall By pos0 time; mkCall Bz pos0 time])).
Proof. destruct_vec2x3 bFieldPositions_SI. reflexivity. Qed.

Lemma vget_vmap_3 {A B : Type} (f : A -> B) (v : Vector A 3) (i : nat)
    (da : A) (db : B) :
  (i < 3)%nat -> vget i db (vmap f v) = f (vget i da v).
Proof.
  intros Hi. destruct v as [a [b [c []]]].
  destruct i as [| [| [| i]]]; try reflexivity.
  exfalso. repeat apply PeanoNat.lt_S_n in Hi. inversion Hi.
Qed.

(** X11: in 3-D the electric functor makes exactly one closed-form
    evaluation per call and returns (E, 0, 0).  The evaluation is at time
    currentStep * dt - tdelay and at the position (X, -sin(phi)*Y - cos(phi)*Z,
    cos(phi)*Y - sin(phi)*Z), where X, Y, Z are the physical coordinates of
    the Ex sample point of the cell: counted from the half-extent along x and
    z and from focusY along y.  The object comes back unchanged. *)
Theorem TWTSFieldE_operator_call_DIM3_value
    (sim : Simulation DIM3) (this : TWTSFieldE.members DIM3)
    (cellIdx : DataSpace DIM3) (currentStep : N) :
  let cellDimensions := vscale (cellSize sim) (TWTSFieldE.unit_length this) in
  let offset := vget 0 (vconst DIM3 0) (getEFieldPosition sim) in
  let half := TWTSFieldE.halfSimSize this in
  let X := physical_coordinate 0 cellIdx offset (IZR (vget 0 0%Z half)) cellDimensions in
  let Y := physical_coordinate 1 cellIdx offset
             (TWTSFieldE.focus_y_SI this / get_y cellDimensions) cellDimensions in
  let Z := physical_coordinate 2 cellIdx offset (IZR (vget 2 0%Z half)) cellDimensions in
  let phi := TWTSFieldE.phi this in
  let pos := mk_float3 X (- sin phi * Y - cos phi * Z) (cos phi * Y - sin phi * Z) in
  let time := IZR (Z.of_N currentStep) * TWTSFieldE.dt this - TWTSFieldE.tdelay this in
  TWTSFieldE.operator_call cellIdx currentStep sim this
  = (mk_float3 (TWTSFieldE.calcTWTSEx (si sim) (pmMath_impl sim) this pos time) 0 0,
     this, [mkCall Ex pos time]).
Proof.
  cbv zeta.
  rewrite TWTSFieldE_operator_call_run, getTWTSEfield_Normalized_DIM3_run.
  cbv zeta.
  rewrite getEfieldPositions_SI_run. unfold result_of. cbn [fst snd]. cbv zeta.
  rewrite (vget_vmap_3 _ _ 0 (vconst DIM3 0)) by repeat constructor.
  set (off := vget 0 (vconst DIM3 0) (getEFieldPosition sim)).
  set (dims := vscale (cellSize sim) (TWTSFieldE.unit_length this)).
  assert (Hpos :
    detail.rotateField
      (vmul (vadd off (vsub (precisionCast cellIdx)
                (laserOrigin_code (TWTSFieldE.halfSimSize this)
                   (TWTSFieldE.focus_y_SI this) (get_y dims)))) dims)
      (TWTSFieldE.phi this)
    = mk_float3
        (physical_coordinate 0 cellIdx off
           (IZR (vget 0 0%Z (TWTSFieldE.halfSimSize this))) dims)
        (- sin (TWTSFieldE.phi this) *
           physical_coordinate 1 cellIdx off
             (TWTSFieldE.focus_y_SI this / get_y dims) dims
         - cos (TWTSFieldE.phi this) *
           physical_coordinate 2 cellIdx off
             (IZR (vget 2 0%Z (TWTSFieldE.halfSimSize this))) dims)
        (cos (TWTSFieldE.phi this) *
           physical_coordinate 1 cellIdx off
             (TWTSFieldE.focus_y_SI this / get_y dims) dims
         - sin (TWTSFieldE.phi this) *
           physical_coordinate 2 cellIdx off
             (IZR (vget 2 0%Z (TWTSFieldE.halfSimSize this))) dims)).
  { generalize (TWTSFieldE.halfSimSize this) as h. intros h.
    generalize (TWTSFieldE.focus_y_SI this) as f. intros f.
    clearbody off dims.
    destruct_vec3 off. destruct_vec3 dims. destruct h as [hx [hy [hz []]]].
    destruct cellIdx as [cx [cy [cz []]]].
    rewrite rotateField_Vector3_components.
    apply mk_float3_eq;
      unfold physical_coordinate, laserOrigin_code, get_x, get_y, get_z, set_y,
        vmul, vadd, vsub, precisionCast;
      cbn [vzip vmap vget vset fst snd]; ring. }
  rewrite Hpos. reflexivity.
Qed.

(** X12: in 2-D the electric functor makes exactly one closed-form
    evaluation per call and returns (0, 0, E).  The evaluation is at the model
    position (0, cos(phi)*Y - sin(phi)*X, 0), with X, Y the physical
    coordinates of the Ez sample point of the cell: only the second component
    of the rotated 2-D position reaches the evaluator, the model x and z are
    both 0. *)
Theorem TWTSFieldE_operator_call_DIM2_value
    (sim : Simulation DIM2) (this : TWTSFieldE.members DIM2)
    (cellIdx : DataSpace DIM2) (currentStep : N) :
  let cellDimensions := vscale (cellSize sim) (TWTSFieldE.unit_length this) in
  let offset := vget 2 (vconst DIM2 0) (getEFieldPosition sim) in
  let half := TWTSFieldE.halfSimSize this in
  let X := physical_coordinate 0 cellIdx offset (IZR (vget 0 0%Z half)) cellDimensions in
  let Y := physical_coordinate 1 cellIdx offset
             (TWTSFieldE.focus_y_SI this / get_y cellDimensions) cellDimensions in
  let phi := TWTSFieldE.phi this in
  let pos := mk_float3 0 (cos phi * Y - sin phi * X) 0 in
  let time := IZR (Z.of_N currentStep) * TWTSFieldE.dt this - TWTSFieldE.tdelay this in
  TWTSFieldE.operator_call cellIdx currentStep sim this
  = (mk_float3 0 0 (TWTSFieldE.calcTWTSEx (si sim) (pmMath_impl sim) this pos time),
     this, [mkCall Ex pos time]).
Proof.
  cbv zeta.
  rewrite TWTSFieldE_operator_call_run, getTWTSEfield_Normalized_DIM2_run.
  cbv zeta.
  rewrite getEfieldPositions_SI_run. unfold result_of. cbn [fst snd]. cbv zeta.
  rewrite (vget_vmap_3 _ _ 2 (vconst DIM2 0)) by repeat constructor.
  set (off := vget 2 (vconst DIM2 0) (getEFieldPosition sim)).
  set (dims := vscale (cellSize sim) (TWTSFieldE.unit_length this)).
  assert (Hy :
    get_y (detail.rotateField
      (vmul (vadd off (vsub (precisionCast cellIdx)
                (laserOrigin_code (TWTSFieldE.halfSimSize this)
                   (TWTSFieldE.focus_y_SI this) (get_y dims)))) dims)
      (TWTSFieldE.phi this))
    = cos (TWTSFieldE.phi this) *
        physical_coordinate 1 cellIdx off
          (TWTSFieldE.focus_y_SI this / get_y dims) dims
      - sin (TWTSFieldE.phi this) *
        physical_coordinate 0 cellIdx off
          (IZR (vget 0 0%Z (TWTSFieldE.halfSimSize this))) dims).
  { generalize (TWTSFieldE.halfSimSize this) as h. intros h.
    generalize (TWTSFieldE.focus_y_SI this) as f. intros f.
    clearbody off dims.
    destruct_vec2 off. destruct_vec2 dims. destruct h as [hx [hy []]].
    destruct cellIdx as [cx [cy []]].
    rewrite rotateField_Vector2_components.
    unfold mk_float2, physical_coordinate, laserOrigin_code, get_x, get_y, set_y,
        vmul, vadd, vsub, precisionCast;
      cbn [vzip vmap vget vset fst snd]; ring. }
  rewrite Hy. reflexivity.
Qed.

(** X13: the 2-D magnetic position mapper swaps the two coordinates before
    it rotates, so for every B component it returns
    (-sin(phi)*X - cos(phi)*Y, cos(phi)*X - sin(phi)*Y), with X, Y the
    physical coordinates of the sample point (X from the half-extent, Y from
    focusY). *)
Theorem getBfieldPositions_SI_DIM2_value
    (sim : Simulation DIM2) (this : TWTSFieldB.members DIM2)
    (cellIdx : DataSpace DIM2) :
  let cellDimensions := vscale (cellSize sim) (TWTSFieldB.unit_length this) in
  let half := TWTSFieldB.halfSimSize this in
  let phi := TWTSFieldB.phi this in
  result_of (TWTSFieldB.getBfieldPositions_SI_call cellIdx sim this)
  = vmap (fun offset =>
            let X := physical_coordinate 0 cellIdx offset
                       (IZR (vget 0 0%Z half)) cellDimensions in
            let Y := physical_coordinate 1 cellIdx offset
                       (TWTSFieldB.focus_y_SI this / get_y cellDimensions)
                       cellDimensions in
            mk_float2 (- sin phi * X - cos phi * Y) (cos phi * X - sin phi * Y))
      (getBFieldPosition sim).
Proof.
  cbv zeta.
  rewrite getBfieldPositions_SI_DIM2_run. unfold result_of. cbn [fst snd]. cbv zeta.
  apply vmap_ext_3. intros off.
  generalize (TWTSFieldB.halfSimSize this) as h. intros h.
  generalize (TWTSFieldB.focus_y_SI this) as f. intros f.
  generalize (vscale (cellSize sim) (TWTSFieldB.unit_length this)) as dims.
  intros dims.
  destruct_vec2 off. destruct_vec2 dims. destruct h as [hx [hy []]].
  destruct cellIdx as [cx [cy []]].
  rewrite rotateField_Vector2_components.
  apply mk_float2_eq;
    unfold physical_coordinate, laserOrigin_code, get_x, get_y, set_x, set_y,
      vmul, vadd, vsub, precisionCast;
    cbn [vzip vmap vget vset fst snd]; ring.
Qed.

Lemma swapped_rotated_y_2 (off dims : Vector R 2) (f phi : R)
    (cellIdx : DataSpace DIM2) (h : DataSpace DIM2) :
  let p := vmul (vadd off (vsub (precisionCast cellIdx)
                   (laserOrigin_code h f (get_y dims)))) dims in
  get_y (detail.rotateField (set_y (get_x p) (set_x (get_y p) p)) phi)
  = cos phi * physical_coordinate 0 cellIdx off (IZR (vget 0 0%Z h)) dims
    - sin phi * physical_coordinate 1 cellIdx off (f / get_y dims) dims.
Proof.
  destruct_vec2 off. destruct_vec2 dims. destruct h as [hx [hy []]].
  destruct cellIdx as [cx [cy []]]. cbv zeta.
  rewrite rotateField_Vector2_components.
  unfold mk_float2, physical_coordinate, laserOrigin_code, get_x, get_y,
    set_x, set_y, vmul, vadd, vsub, precisionCast;
    cbn [vzip vmap vget vset fst snd]; ring.
Qed.

(** X14: in 2-D the magnetic functor makes four closed-form evaluations per
    call, By and Bz at the By sample point and then at the Bx sample point,
    all at model positions (0, cos(phi)*X - sin(phi)*Y, 0), and returns
    (0, By_rot, Bx_rot) with By_rot = -sin(phi)*By + cos(phi)*(-Bz) at the By
    point and Bx_rot = -cos(phi)*By - sin(phi)*(-Bz) at the Bx point.  The
    model coordinate differs from the electric functor's
    cos(phi)*Y - sin(phi)*X. *)
Theorem TWTSFieldB_operator_call_DIM2_value
    (sim : Simulation DIM2) (this : TWTSFieldB.members DIM2)
    (cellIdx : DataSpace DIM2) (currentStep : N) :
  let cellDimensions := vscale (cellSize sim) (TWTSFieldB.unit_length this) in
  let half := TWTSFieldB.halfSimSize this in
  let phi := TWTSFieldB.phi this in
  let model_pos (offset : floatD_X DIM2) :=
    let X := physical_coordinate 0 cellIdx offset
               (IZR (vget 0 0%Z half)) cellDimensions in
    let Y := physical_coordinate 1 cellIdx offset
               (TWTSFieldB.focus_y_SI this / get_y cellDimensions)
               cellDimensions in
    mk_float3 0 (cos phi * X - sin phi * Y) 0 in
  let posBx := model_pos (vget 0 (vconst DIM2 0) (getBFieldPosition sim)) in
  let posBy := model_pos (vget 1 (vconst DIM2 0) (getBFieldPosition sim)) in
  let time := IZR (Z.of_N currentStep) * TWTSFieldB.dt this - TWTSFieldB.tdelay this in
  let calcBy pos :=
    TWTSFieldB.calcTWTSBy (si sim) (pmMath_impl sim) this pos time in
  let calcBz pos :=
    TWTSFieldB.calcTWTSBz (si sim) (pmMath_impl sim) this pos time in
  TWTSFieldB.operator_call cellIdx currentStep sim this
  = (mk_float3 0
       (- sin phi * calcBy posBy + cos phi * - calcBz posBy)
       (- cos phi * calcBy posBx - sin phi * - calcBz posBx),
     this,
     [mkCall By posBy time; mkCall Bz posBy time;
      mkCall By posBx time; mkCall Bz posBx time]).
Proof.
  cbv zeta.
  rewrite TWTSFieldB_operator_call_DIM2, getTWTSBfield_Normalized_DIM2_run.
  cbv zeta.
  rewrite getBfieldPositions_SI_DIM2_run. unfold result_of. cbn [fst snd]. cbv zeta.
  rewrite (vget_vmap_3 _ _ 0 (vconst DIM2 0)) by repeat constructor.
  rewrite (vget_vmap_3 _ _ 1 (vconst DIM2 0)) by repeat constructor.
  rewrite !swapped_rotated_y_2.
  reflexivity.
Qed.

Lemma dist2_rotated_positions_3 (off c1 c2 origin dims : Vector R 3) (phi : R) :
  dist2 (detail.rotateField (vmul (vadd off (vsub c1 origin)) dims) phi)
        (detail.rotateField (vmul (vadd off (vsub c2 origin)) dims) phi)
  = dist2 (vmul c1 dims) (vmul c2 dims).
Proof.
  destruct_vec3 off. destruct_vec3 c1. destruct_vec3 c2.
  destruct_vec3 origin. destruct_vec3 dims.
  rewrite !rotateField_Vector3_components.
  unfold mk_float3, get_x, get_y, get_z, vmul, vadd, vsub.
  cbn [dist2 vzip vget fst snd].
  pose proof (sin_cos_square phi) as H.
  set (a := (y0 - y1) * y3). set (b := (z0 - z1) * z3).
  transitivity ((x0 - x1) * x3 * ((x0 - x1) * x3)
                + ((- sin phi * a - cos phi * b) * (- sin phi * a - cos phi * b)
                   + (cos phi * a - sin phi * b) * (cos phi * a - sin phi * b))).
  - unfold a, b. ring.
  - rewrite (rotation_square_sum _ _ a b H). unfold a, b. ring.
Qed.

Lemma vzip_vmap_const_3 {A : Type} (f g : A -> Vector R 3) (d : R) (v : Vector A 3) :
  (forall a, dist2 (f a) (g a) = d) ->
  vzip dist2 (vmap f v) (vmap g v) = vconst 3 d.
Proof.
  intros H. destruct v as [a [b [c []]]].
  cbn [vzip vmap vconst fst snd]. rewrite !H. reflexivity.
Qed.

(** X15: the 3-D position mappers preserve distances.  For each field
    component, the mapped positions of two cells are as far apart as the
    cells are on the physical grid (index difference times physical cell
    size, per axis); the Yee offset, the focus and the angle do not matter. *)
Theorem field_positions_preserve_distance_DIM3 (sim : Simulation DIM3)
    (thisE : TWTSFieldE.members DIM3) (thisB : TWTSFieldB.members DIM3)
    (cell1 cell2 : DataSpace DIM3) :
  vzip dist2
    (result_of (TWTSFieldE.getEfieldPositions_SI cell1 sim thisE))
    (result_of (TWTSFieldE.getEfieldPositions_SI cell2 sim thisE))
  = vconst numComponents
      (let cellDimensions := vscale (cellSize sim) (TWTSFieldE.unit_length thisE) in
       dist2 (vmul (precisionCast cell1) cellDimensions)
             (vmul (precisionCast cell2) cellDimensions))
  /\ vzip dist2
       (result_of (TWTSFieldB.getBfieldPositions_SI_call cell1 sim thisB))
       (result_of (TWTSFieldB.getBfieldPositions_SI_call cell2 sim thisB))
     = vconst numComponents
         (let cellDimensions := vscale (cellSize sim) (TWTSFieldB.unit_length thisB) in
          dist2 (vmul (precisionCast cell1) cellDimensions)
                (vmul (precisionCast cell2) cellDimensions)).
Proof.
  split.
  - rewrite !getEfieldPositions_SI_run. unfold result_of. cbn [fst snd]. cbv zeta.
    apply vzip_vmap_const_3. intros off. apply dist2_rotated_positions_3.
  - rewrite !getBfieldPositions_SI_DIM3_run. unfold result_of. cbn [fst snd]. cbv zeta.
    apply vzip_vmap_const_3. intros off. apply dist2_rotated_positions_3.
Qed.

Lemma dist2_rotated_positions_2 (off c1 c2 origin dims : Vector R 2) (phi : R) :
  dist2 (detail.rotateField (vmul (vadd off (vsub c1 origin)) dims) phi)
        (detail.rotateField (vmul (vadd off (vsub c2 origin)) dims) phi)
  = dist2 (vmul c1 dims) (vmul c2 dims).
Proof.
  destruct_vec2 off. destruct_vec2 c1. destruct_vec2 c2.
  destruct_vec2 origin. destruct_vec2 dims.
  rewrite !rotateField_Vector2_components.
  unfold mk_float2, get_x, get_y, vmul, vadd, vsub.
  cbn [dist2 vzip vget fst snd].
  pose proof (sin_cos_square phi) as H.
  set (a := (y0 - y1) * y3). set (b := (x0 - x1) * x3).
  transitivity ((- sin phi * a - cos phi * b) * (- sin phi * a - cos phi * b)
                + (cos phi * a - sin phi * b) * (cos phi * a - sin phi * b)).
  - unfold a, b. ring.
  - rewrite (rotation_square_sum _ _ a b H). unfold a, b. ring.
Qed.

Lemma dist2_swapped_rotated_positions_2 (off c1 c2 origin dims : Vector R 2)
    (phi : R) :
  let swap_rotate p :=
    detail.rotateField (set_y (get_x p) (set_x (get_y p) p)) phi in
  dist2 (swap_rotate (vmul (vadd off (vsub c1 origin)) dims))
        (swap_rotate (vmul (vadd off (vsub c2 origin)) dims))
  = dist2 (vmul c1 dims) (vmul c2 dims).
Proof.
  destruct_vec2 off. destruct_vec2 c1. destruct_vec2 c2.
  destruct_vec2 origin. destruct_vec2 dims. cbv beta zeta.
  rewrite !rotateField_Vector2_components.
  unfold mk_float2, get_x, get_y, set_x, set_y, vmul, vadd, vsub.
  cbn [dist2 vzip vget vset fst snd].
  pose proof (sin_cos_square phi) as H.
  set (a := (x0 - x1) * x3). set (b := (y0 - y1) * y3).
  transitivity ((- sin phi * a - cos phi * b) * (- sin phi * a - cos phi * b)
                + (cos phi * a - sin phi * b) * (cos phi * a - sin phi * b)).
  - unfold a, b. ring.
  - rewrite (rotation_square_sum _ _ a b H). unfold a, b. ring.
Qed.

Lemma vzip_vmap_const_2 {A : Type} (f g : A -> Vector R 2) (d : R) (v : Vector A 3) :
  (forall a, dist2 (f a) (g a) = d) ->
  vzip dist2 (vmap f v) (vmap g v) = vconst 3 d.
Proof.
  intros H. destruct v as [a [b [c []]]].
  cbn [vzip vmap vconst fst snd]. rewrite !H. reflexivity.
Qed.

(** X16: the 2-D position mappers (E without, B with the coordinate swap)
    preserve distances in the same sense. *)
Theorem field_positions_preserve_distance_DIM2 (sim : Simulation DIM2)
    (thisE : TWTSFieldE.members DIM2) (thisB : TWTSFieldB.members DIM2)
    (cell1 cell2 : DataSpace DIM2) :
  vzip dist2
    (result_of (TWTSFieldE.getEfieldPositions_SI cell1 sim thisE))
    (result_of (TWTSFieldE.getEfieldPositions_SI cell2 sim thisE))
  = vconst numComponents
      (let cellDimensions := vscale (cellSize sim) (TWTSFieldE.unit_length thisE) in
       dist2 (vmul (precisionCast cell1) cellDimensions)
             (vmul (precisionCast cell2) cellDimensions))
  /\ vzip dist2
       (result_of (TWTSFieldB.getBfieldPositions_SI_call cell1 sim thisB))
       (result_of (TWTSFieldB.getBfieldPositions_SI_call cell2 sim thisB))
     = vconst numComponents
         (let cellDimensions := vscale (cellSize sim) (TWTSFieldB.unit_length thisB) in
          dist2 (vmul (precisionCast cell1) cellDimensions)
                (vmul (precisionCast cell2) cellDimensions)).
Proof.
  split.
  - rewrite !getEfieldPositions_SI_run. unfold result_of. cbn [fst snd]. cbv zeta.
    apply vzip_vmap_const_2. intros off. apply dist2_rotated_positions_2.
  - rewrite !getBfieldPositions_SI_DIM2_run. unfold result_of. cbn [fst snd]. cbv zeta.
    apply vzip_vmap_const_2. intros off.
    apply (dist2_swapped_rotated_positions_2 off).
Qed.

Lemma laserOrigin_code_ignores_half_y_3 (h : DataSpace 3) (hy : Z) (f cy : R) :
  @laserOrigin_code 3 (vset 1 hy h) f cy = laserOrigin_code h f cy.
Proof. destruct h as [a [b [c []]]]. reflexivity. Qed.

Lemma laserOrigin_code_ignores_half_y_2 (h : DataSpace 2) (hy : Z) (f cy : R) :
  @laserOrigin_code 2 (vset 1 hy h) f cy = laserOrigin_code h f cy.
Proof. destruct h as [a [b []]]. reflexivity. Qed.

(** X17: the mapped positions do not depend on the half-extent of the domain
    along y: replacing that component of halfSimSize by any other value
    leaves the E and B positions unchanged, in 3-D and in 2-D. *)
Theorem field_positions_ignore_half_extent_y
    (sim3 : Simulation DIM3) (sim2 : Simulation DIM2)
    (E3 : TWTSFieldE.members DIM3) (E2 : TWTSFieldE.members DIM2)
    (B3 : TWTSFieldB.members DIM3) (B2 : TWTSFieldB.members DIM2)
    (cellIdx3 : DataSpace DIM3) (cellIdx2 : DataSpace DIM2) (halfY : Z) :
  result_of (TWTSFieldE.getEfieldPositions_SI cellIdx3 sim3
    (E_with_halfSimSize E3 (vset 1 halfY (TWTSFieldE.halfSimSize E3))))
  = result_of (TWTSFieldE.getEfieldPositions_SI cellIdx3 sim3 E3)
  /\ result_of (TWTSFieldE.getEfieldPositions_SI cellIdx2 sim2
       (E_with_halfSimSize E2 (vset 1 halfY (TWTSFieldE.halfSimSize E2))))
     = result_of (TWTSFieldE.getEfieldPositions_SI cellIdx2 sim2 E2)
  /\ result_of (TWTSFieldB.getBfieldPositions_SI_call cellIdx3 sim3
       (B_with_halfSimSize B3 (vset 1 halfY (TWTSFieldB.halfSimSize B3))))
     = result_of (TWTSFieldB.getBfieldPositions_SI_call cellIdx3 sim3 B3)
  /\ result_of (TWTSFieldB.getBfieldPositions_SI_call cellIdx2 sim2
       (B_with_halfSimSize B2 (vset 1 halfY (TWTSFieldB.halfSimSize B2))))
     = result_of (TWTSFieldB.getBfieldPositions_SI_call cellIdx2 sim2 B2).
Proof.
  rewrite !getEfieldPositions_SI_run, !getBfieldPositions_SI_DIM3_run,
    !getBfieldPositions_SI_DIM2_run.
  unfold result_of, E_with_halfSimSize, B_with_halfSimSize.
  cbn [fst snd TWTSFieldE.halfSimSize TWTSFieldE.focus_y_SI TWTSFieldE.phi
       TWTSFieldE.unit_length TWTSFieldB.halfSimSize TWTSFieldB.focus_y_SI
       TWTSFieldB.phi TWTSFieldB.unit_length].
  cbv zeta.
  rewrite !laserOrigin_code_ignores_half_y_3, !laserOrigin_code_ignores_half_y_2.
  repeat split.
Qed.


(** X19: when the By and Bz sample positions coincide (in 2-D: when the By
    and Bx positions have the same second component), the magnetic field
    returned by the specialiser has the magnitude of the model field:
    out_y^2 + out_z^2 = By^2 + Bz^2. *)
Theorem Bfield_magnitude_on_collocated_positions
    (sim3 : Simulation DIM3) (sim2 : Simulation DIM2)
    (B3 : TWTSFieldB.members DIM3) (B2 : TWTSFieldB.members DIM2)
    (positions3 : Vector (floatD_64 DIM3) numComponents)
    (positions2 : Vector (floatD_64 DIM2) numComponents) (time : R) :
  vget 1 (vconst DIM3 0) positions3 = vget 2 (vconst DIM3 0) positions3 ->
  get_y (vget 1 (vconst DIM2 0) positions2)
    = get_y (vget 0 (vconst DIM2 0) positions2) ->
  (let out := result_of (TWTSFieldB.getTWTSBfield_Normalized_call (T_dim := DIM3)
                           positions3 time sim3 B3) in
   let pos := vget 1 (vconst DIM3 0) positions3 in
   let By_ := TWTSFieldB.calcTWTSBy (si sim3) (pmMath_impl sim3) B3 pos time in
   let Bz_ := TWTSFieldB.calcTWTSBz (si sim3) (pmMath_impl sim3) B3 pos time in
   get_y out * get_y out + get_z out * get_z out = By_ * By_ + Bz_ * Bz_)
  /\ (let out := result_of (TWTSFieldB.getTWTSBfield_Normalized_call (T_dim := DIM2)
                              positions2 time sim2 B2) in
      let pos := mk_float3 0 (get_y (vget 1 (vconst DIM2 0) positions2)) 0 in
      let By_ := TWTSFieldB.calcTWTSBy (si sim2) (pmMath_impl sim2) B2 pos time in
      let Bz_ := TWTSFieldB.calcTWTSBz (si sim2) (pmMath_impl sim2) B2 pos time in
      get_y out * get_y out + get_z out * get_z out = By_ * By_ + Bz_ * Bz_).
Proof.
  intros H3 H2. cbv zeta.
  rewrite getTWTSBfield_Normalized_DIM3_run, getTWTSBfield_Normalized_DIM2_run.
  cbv zeta. rewrite <- H3, <- H2.
  unfold result_of, mk_float3, get_y, get_z. cbn [vget fst snd].
  split.
  - apply back_rotation_square_sum, sin_cos_square.
  - set (by_ := TWTSFieldB.calcTWTSBy _ _ _ _ _).
    set (bz_ := TWTSFieldB.calcTWTSBz _ _ _ _ _).
    rewrite <- (back_rotation_square_sum _ _ by_ bz_
                  (sin_cos_square (TWTSFieldB.phi B2))).
    ring.
Qed.

Lemma Bfield_magnitude_on_collocated_positions_witness :
  let positions3 := vconst numComponents (mk_float3 1 2 3) in
  let positions2 := vconst numComponents (mk_float2 1 2) in
  (let out := result_of (TWTSFieldB.getTWTSBfield_Normalized_call (T_dim := DIM3)
                           positions3 0 sample_simulation sample_B) in
   let pos := vget 1 (vconst DIM3 0) positions3 in
   let By_ := TWTSFieldB.calcTWTSBy (si sample_simulation)
                (pmMath_impl sample_simulation) sample_B pos 0 in
   let Bz_ := TWTSFieldB.calcTWTSBz (si sample_simulation)
                (pmMath_impl sample_simulation) sample_B pos 0 in
   get_y out * get_y out + get_z out * get_z out = By_ * By_ + Bz_ * Bz_)
  /\ (let sim2 :=
        mkSimulation DIM2 sample_SI (pmMath_impl sample_simulation) 1
          (mk_float2 1 1) (128%Z, (128%Z, tt))
          (vconst numComponents (mk_float2 0 0))
          (vconst numComponents (mk_float2 0 0)) in
      let B2 := TWTSFieldB.construct sim2
                  0 0.8e-6 10.0e-15 5.0e-6 0.01 (PI / 2) 1 0 true in
      let out := result_of (TWTSFieldB.getTWTSBfield_Normalized_call (T_dim := DIM2)
                              positions2 0 sim2 B2) in
      let pos := mk_float3 0 (get_y (vget 1 (vconst DIM2 0) positions2)) 0 in
      let By_ := TWTSFieldB.calcTWTSBy (si sim2) (pmMath_impl sim2) B2 pos 0 in
      let Bz_ := TWTSFieldB.calcTWTSBz (si sim2) (pmMath_impl sim2) B2 pos 0 in
      get_y out * get_y out + get_z out * get_z out = By_ * By_ + Bz_ * Bz_).
Proof.
  cbv zeta.
  apply (Bfield_magnitude_on_collocated_positions sample_simulation
           (mkSimulation DIM2 sample_SI (pmMath_impl sample_simulation) 1
              (mk_float2 1 1) (128%Z, (128%Z, tt))
              (vconst numComponents (mk_float2 0 0))
              (vconst numComponents (mk_float2 0 0)))
           sample_B _
           (vconst numComponents (mk_float3 1 2 3))
           (vconst numComponents (mk_float2 1 2)) 0);
    reflexivity.
Defined.
